(** * adb.js: the device command runner and the binary-safe dos2unix

    A shallow embedding of [agent/js/src/adb.js]:
    - [Adb.prototype.command_], [adb], [shell], [exists] and
      [getPidsOfProcess] over an abstract [scheduleExec];
    - [Adb.prototype.dos2unix] on strings (a global regular-expression
      replace) and on Buffers (the index loop over a store of Buffer
      memory, with [new Buffer], [copy], indexed writes and [slice]).

    JavaScript strings are sequences of UTF-16 code units, Buffers are views
    (memory, offset, length) onto byte stores kept in a heap, promises are
    represented by their outcome. *)

From Stdlib Require Import ZArith NArith Lia Strings.Byte Ascii String.
From stdpp Require Import base decidable option numbers list.

Local Open Scope nat_scope.
#[local] Set Warnings "-clear-no-such-hyp".

(** ** JavaScript strings *)

(** A UTF-16 code unit.  Every function below only compares code units, so
    the 16-bit bound plays no role and is not carried around. *)
Definition char16 : Type := N.
Abbreviation jsstring := (list char16).

(** A string literal of the source (ASCII only). *)
Definition js (s : string) : jsstring :=
  List.map N_of_ascii (list_ascii_of_string s).

Definition CR : char16 := 13%N.
Definition LF : char16 := 10%N.

(** The class [\s] of ECMAScript regular expressions: WhiteSpace and
    LineTerminator code units.  (U+180E, which left the Unicode space
    separators in version 6.3, is not counted; nothing below depends on
    it.) *)
Definition is_space (c : char16) : bool :=
  ((9 <=? c) && (c <=? 13) || (c =? 32) || (c =? 160) || (c =? 5760)
   || (8192 <=? c) && (c <=? 8202) || (c =? 8232) || (c =? 8233)
   || (c =? 8239) || (c =? 8287) || (c =? 12288) || (c =? 65279))%N.

(** ** Regular expressions of the source, as matchers

    A matcher looks at the text that starts at the current position and
    answers with the length of the match there, if any.  The three regular
    expressions of [adb.js] never match the empty string. *)
Definition matcher : Type := jsstring → option nat.

(** [/\r\n/] *)
Definition re_crlf : matcher := λ s,
  match s with
  | c :: d :: _ => if bool_decide (c = CR ∧ d = LF) then Some 2 else None
  | _ => None
  end.

(** [/\r?\n/]: the optional [\r] is tried first, then the bare [\n]. *)
Definition re_opt_cr_lf : matcher := λ s,
  match s with
  | c :: rest =>
      if bool_decide (c = CR ∧ head rest = Some LF) then Some 2
      else if bool_decide (c = LF) then Some 1
      else None
  | [] => None
  end.

(** [/\s+/]: the longest run of white space ([+] is greedy). *)
Fixpoint space_run (s : jsstring) : nat :=
  match s with
  | c :: s' => if is_space c then S (space_run s') else 0
  | [] => 0
  end.

Definition re_spaces : matcher := λ s,
  match space_run s with
  | 0 => None
  | n => Some n
  end.

(** [String.prototype.split(re)] for a [re] without empty matches: walk the
    string; where [re] matches, close the current piece and step over the
    match ([skip] counts the code units of the match still to step over);
    elsewhere the code unit joins the current piece.  The last piece is
    always emitted, so the result is never empty. *)
Fixpoint split_go (re : matcher) (s : jsstring) (skip : nat) (cur : jsstring)
  : list jsstring :=
  match s with
  | [] => [cur]
  | c :: s' =>
      match skip with
      | S k => split_go re s' k cur
      | 0 =>
          match re s with
          | Some (S k) => cur :: split_go re s' k []
          | _ => split_go re s' 0 (cur ++ [c])
          end
      end
  end.

Definition split (re : matcher) (s : jsstring) : list jsstring :=
  split_go re s 0 [].

(** [String.prototype.replace(re, by)] for a global [re] without empty
    matches. *)
Fixpoint replace_go (re : matcher) (by_ : jsstring) (s : jsstring) (skip : nat)
  : jsstring :=
  match s with
  | [] => []
  | c :: s' =>
      match skip with
      | S k => replace_go re by_ s' k
      | 0 =>
          match re s with
          | Some (S k) => by_ ++ replace_go re by_ s' k
          | _ => c :: replace_go re by_ s' 0
          end
      end
  end.

Definition replace (re : matcher) (by_ : jsstring) (s : jsstring) : jsstring :=
  replace_go re by_ s 0.

(** [String.prototype.indexOf(pat)]: the first position where [pat] occurs,
    [-1] when there is none. *)
Fixpoint indexOf_from (pat s : jsstring) (i : nat) : Z :=
  if bool_decide (pat `prefix_of` s) then Z.of_nat i
  else match s with
       | [] => (-1)%Z
       | _ :: s' => indexOf_from pat s' (S i)
       end.

Definition indexOf (s pat : jsstring) : Z := indexOf_from pat s 0.


(** ** Values, errors, promises *)

(** A Buffer is a view onto a store of bytes: [slice] makes a second view
    of the same memory. *)
Definition loc : Type := nat.
Record buffer : Type := Buffer { buf_mem : loc; buf_off : nat; buf_len : nat }.

(** The JavaScript values that reach this file.  Numbers are the integral
    ones (timeouts in milliseconds). *)
Inductive value : Type :=
  | VUndefined
  | VNull
  | VNum (n : Z)
  | VStr (s : jsstring)
  | VBuf (b : buffer).

(** ToBoolean *)
Definition truthy (v : value) : bool :=
  match v with
  | VUndefined | VNull => false
  | VNum n => negb (n =? 0)%Z
  | VStr s => negb (bool_decide (s = []))
  | VBuf _ => true
  end.

(** [a || b] *)
Definition js_or (a b : value) : value := if truthy a then a else b.

(** [Error fmt args] is [new Error(util.format(fmt, args...))], kept
    unformatted; the other two are thrown by the built-ins. *)
Inductive js_error : Type :=
  | Error (fmt : string) (args : list value)
  | RangeError (what : string)
  | TypeError (what : string).

(** The outcome of a promise. *)
Inductive promise (A : Type) : Type :=
  | Fulfilled (v : A)
  | Rejected (e : js_error).
Arguments Fulfilled {A} v.
Arguments Rejected {A} e.

(** What a callback does: return or throw. *)
Inductive completion (A : Type) : Type :=
  | Return (v : A)
  | Throws (e : js_error).
Arguments Return {A} v.
Arguments Throws {A} e.

(** [p.then(callback)]: a rejection skips the callback and is passed on, a
    throwing callback rejects. *)
Definition then_ {A B : Type} (p : promise A) (callback : A → completion B)
  : promise B :=
  match p with
  | Fulfilled v =>
      match callback v with
      | Return r => Fulfilled r
      | Throws e => Rejected e
      end
  | Rejected e => Rejected e
  end.

(** [array.forEach(function(x, i) {...})] with a callback that updates the
    captured state [st] and may throw, which ends the iteration. *)
Fixpoint forEach {A St : Type} (callback : A → nat → St → completion St)
    (l : list A) (i : nat) (st : St) : completion St :=
  match l with
  | [] => Return st
  | x :: l' =>
      match callback x i st with
      | Return st' => forEach callback l' (S i) st'
      | Throws e => Throws e
      end
  end.

(** [array[i]] on an array of strings *)
Definition js_nth (a : list jsstring) (i : nat) : value :=
  match a !! i with
  | Some s => VStr s
  | None => VUndefined
  end.

(** ** The heap of Buffer memory *)

#[global] Instance byte_eq_dec : EqDecision byte := Byte.byte_eq_dec.

Abbreviation heap := (list (list byte)).

Inductive result (A : Type) : Type :=
  | Ok (a : A) (h : heap)
  | Raise (e : js_error).
Arguments Ok {A} a h.
Arguments Raise {A} e.

(** Computations on the heap that may throw. *)
Definition M (A : Type) : Type := heap → result A.

Definition ret {A : Type} (a : A) : M A := λ h, Ok a h.

Definition bind {A B : Type} (m : M A) (k : A → M B) : M B := λ h,
  match m h with
  | Ok a h' => k a h'
  | Raise e => Raise e
  end.

Notation "x <- m ;; k" := (bind m (λ x, k))
  (at level 20, m at level 99, k at level 200, format "x  <-  m  ;;  '/' k").

(** The bytes a Buffer shows. *)
Definition bytes_of (h : heap) (b : buffer) : list byte :=
  take (buf_len b) (drop (buf_off b) (default [] (h !! buf_mem b))).

(** [b[i]]: [None] is [undefined], read outside the view. *)
Definition buf_get (b : buffer) (i : nat) : M (option byte) := λ h,
  Ok (if decide (i < buf_len b) then bytes_of h b !! i else None) h.

(** [b[i] = v]: outside the view nothing is written. *)
Definition buf_set (b : buffer) (i : nat) (v : byte) : M unit := λ h,
  Ok tt (if decide (i < buf_len b)
         then alter (<[buf_off b + i := v]>) (buf_mem b) h
         else h).

(** Overwrite a store from position [pos] with [data]. *)
Definition blit (pos : nat) (data store : list byte) : list byte :=
  take pos store ++ data ++ drop (pos + length data) store.

(** [source.copy(target, targetStart, sourceStart, sourceEnd)].  Ranges that
    leave either view are treated differently by the versions of the Buffer
    library (an error, or a shorter copy); here they raise. *)
Definition buf_copy (source target : buffer)
    (targetStart sourceStart sourceEnd : nat) : M nat := λ h,
  if decide (sourceStart ≤ sourceEnd ∧ sourceEnd ≤ buf_len source ∧
             targetStart + (sourceEnd - sourceStart) ≤ buf_len target)
  then
    let data := take (sourceEnd - sourceStart) (drop sourceStart (bytes_of h source)) in
    Ok (sourceEnd - sourceStart)
       (alter (blit (buf_off target + targetStart) data) (buf_mem target) h)
  else Raise (RangeError "out of bounds").

(** [b.slice(start, end)]: a view of the same memory, clamped to [b]. *)
Definition buf_slice (b : buffer) (start end_ : nat) : buffer :=
  let e := end_ `min` buf_len b in
  let s := start `min` e in
  Buffer (buf_mem b) (buf_off b + s) (e - s).

Section Allocation.

(** What the memory handed out by the allocator holds: [new Buffer(n)]
    does not initialise it. *)
Variable junk : loc → nat → byte.

(** [new Buffer(n)] *)
Definition new_Buffer (n : nat) : M buffer := λ h,
  Ok (Buffer (length h) 0 n) (h ++ [junk (length h) <$> seq 0 n]).

End Allocation.

(** ** adb.js *)

#[global] Instance buffer_eq_dec : EqDecision buffer.
Proof. solve_decision. Defined.

#[global] Instance value_eq_dec : EqDecision value.
Proof. solve_decision. Defined.

(** [exports.DEFAULT_TIMEOUT] *)
Definition DEFAULT_TIMEOUT : value := VNum 60000.

Section Adb.

(** The scheduler application and the spawn options are opaque here. *)
Variables App Options : Type.

(** [process_utils.scheduleExec(app, command, args, options, timeout)]:
    the promise of the command's stdout. *)
Variable scheduleExec :
  App → jsstring → list jsstring → option Options → value → promise jsstring.

Variable junk : loc → nat → byte.

(** The fields an [Adb] object gets from its constructor. *)
Record Adb : Type := { app_ : App; adbCommand : jsstring; serial : jsstring }.

Definition command_ (this : Adb) (args : list jsstring)
    (options : option Options) (timeout : value) : promise jsstring :=
  scheduleExec (app_ this) (adbCommand this) args options
    (js_or timeout DEFAULT_TIMEOUT).

Definition adb (this : Adb) (args : list jsstring)
    (options : option Options) (timeout : value) : promise jsstring :=
  command_ this ([js "-s"; serial this] ++ args) options timeout.

Definition shell (this : Adb) (args : list jsstring)
    (options : option Options) (timeout : value) : promise jsstring :=
  adb this ([js "shell"] ++ args) options timeout.

Definition exists_ (this : Adb) (path : jsstring) : promise bool :=
  then_
    (shell this
       [js "ls"; path; js ">"; js "/dev/null"; js "2>&1"; js ";"; js "echo"; js "$?"]
       None VUndefined)
    (λ stdout, Return (bool_decide (stdout = js "0"))).

(** The callback of [lines.forEach] in [getPidsOfProcess]; [pids] is the
    array it pushes to. *)
Definition ps_line (stdout : jsstring) (line : jsstring) (iLine : nat)
    (pids : list value) : completion (list value) :=
  if bool_decide (length line = 0) then Return pids
  else
    let fields := split re_spaces line in
    if bool_decide (iLine = 0) && bool_decide (js_nth fields 0 = VStr (js "USER"))
    then Return pids
    else if negb (bool_decide (length fields = 9))
    then Throws (Error "Failed to parse ps output line %d: %j"
                   [VNum (Z.of_nat iLine); VStr stdout])
    else Return (pids ++ [js_nth fields 1]).

(** The callback of [then] in [getPidsOfProcess]. *)
Definition ps_parse (stdout : jsstring) : completion (list value) :=
  let pids := [] in
  let lines := split re_opt_cr_lf stdout in
  match lines with
  | [] => Throws (Error "ps command failed, output: %j" [VStr stdout])
  | line0 :: _ =>
      if negb (indexOf line0 (js "USER ") =? 0)%Z
      then Throws (Error "ps command failed, output: %j" [VStr stdout])
      else forEach (ps_line stdout) lines 0 pids
  end.

Definition getPidsOfProcess (this : Adb) (name : jsstring)
  : promise (list value) :=
  then_ (shell this [js "ps"; name] None VUndefined) ps_parse.

(** The local variables of [dos2unix] that its loop updates. *)
Record locals : Type :=
  Locals { origPosAfterNewline : nat; retLen : nat }.

(** The body of the [for] loop of [dos2unix] at [origPos]. *)
Definition dos2unix_body (origBuf retBuf : buffer) (origPos : nat)
    (st : locals) : M locals :=
  cur <- buf_get origBuf origPos ;;
  prev <- buf_get origBuf (origPos - 1) ;;
  if bool_decide (Some x0a = cur) && bool_decide (Some x0d = prev) then
    let copyLen :=
      (Z.of_nat origPos - Z.of_nat (origPosAfterNewline st) - 1)%Z in
    retLen1 <-
      (if (0 <? copyLen)%Z then
         copied <- buf_copy origBuf retBuf (retLen st) (origPosAfterNewline st)
                (origPos - 1) ;;
         ret (retLen st + Z.to_nat copyLen)
       else ret (retLen st)) ;;
    done_ <- buf_set retBuf retLen1 x0a ;;
    ret (Locals (origPos + 1) (retLen1 + 1))
  else ret st.

(** [for (origPos = from; ...; ++origPos)] over the positions [l]. *)
Fixpoint for_ (l : list nat) (body : nat → locals → M locals) (st : locals)
  : M locals :=
  match l with
  | [] => ret st
  | origPos :: l' => st' <- body origPos st ;; for_ l' body st'
  end.

(** The Buffer branch of [dos2unix]. *)
Definition dos2unix_Buffer (origBuf : buffer) : M buffer :=
  let origLen := buf_len origBuf in
  retBuf <- new_Buffer junk origLen ;;
  st <- for_ (seq 1 (origLen - 1)) (dos2unix_body origBuf retBuf)
          (Locals 0 0) ;;
  let tailLen := (Z.of_nat origLen - Z.of_nat (origPosAfterNewline st))%Z in
  retLen1 <-
    (if (0 <? tailLen)%Z then
       copied <- buf_copy origBuf retBuf (retLen st) (origPosAfterNewline st)
              origLen ;;
       ret (retLen st + Z.to_nat tailLen)
     else ret (retLen st)) ;;
  ret (if decide (retLen1 < buf_len retBuf)
       then buf_slice retBuf 0 retLen1
       else retBuf).

Definition dos2unix (origBuf : value) : M value :=
  if negb (truthy origBuf) then ret origBuf
  else
    match origBuf with
    | VBuf b => r <- dos2unix_Buffer b ;; ret (VBuf r)
    | VStr s => ret (VStr (replace re_crlf [LF] s))
    | _ => λ _, Raise (TypeError "origBuf.replace is not a function")
    end.

End Adb.

Arguments app_ {App} _.
Arguments adbCommand {App} _.
Arguments serial {App} _.
Arguments command_ {App Options} scheduleExec this args options timeout.
Arguments adb {App Options} scheduleExec this args options timeout.
Arguments shell {App Options} scheduleExec this args options timeout.
Arguments exists_ {App Options} scheduleExec this path.
Arguments getPidsOfProcess {App Options} scheduleExec this name.

(** ** What the specification says of [normalize]

    The definitions of this section follow the words of the specification,
    for sequences over any alphabet with a carriage return [cr] and a line
    feed [lf]; the theorems compare them with [dos2unix]. *)

Section Normalize.

Context {A : Type} `{EqDecision A} (cr lf : A).

(** Every [cr lf] pair replaced by a single [lf], every other element
    kept, in order. *)
Fixpoint crlf_to_lf (l : list A) : list A :=
  match l with
  | [] => []
  | x :: t =>
      match t with
      | y :: t' =>
          if bool_decide (x = cr ∧ y = lf) then lf :: crlf_to_lf t'
          else x :: crlf_to_lf t
      | [] => [x]
      end
  end.

(** The pieces [segs] with [sep] between them. *)
Fixpoint joined (sep : list A) (segs : list (list A)) : list A :=
  match segs with
  | [] => []
  | seg :: rest =>
      match rest with
      | [] => seg
      | _ :: _ => seg ++ sep ++ joined sep rest
      end
  end.

(** [l] contains a [cr lf] pair. *)
Fixpoint has_crlf (l : list A) : bool :=
  match l with
  | [] => false
  | x :: t => bool_decide (x = cr ∧ head t = Some lf) || has_crlf t
  end.

(** [l] contains a [cr] that is followed by a [cr lf] pair. *)
Fixpoint has_cr_crlf (l : list A) : bool :=
  match l with
  | [] => false
  | x :: t =>
      bool_decide (x = cr ∧ head t = Some cr ∧ head (tail t) = Some lf)
      || has_cr_crlf t
  end.

End Normalize.

(** A Buffer whose memory is allocated and long enough for the view. *)
Definition buffer_ok (h : heap) (b : buffer) : Prop :=
  buf_mem b < length h ∧
  buf_off b + buf_len b ≤ length (default [] (h !! buf_mem b)).

#[global] Instance buffer_ok_dec h b : Decision (buffer_ok h b).
Proof. unfold buffer_ok. apply _. Defined.

(** An allocator that hands out zeroed memory, for the worked examples. *)
Definition zeroed : loc → nat → byte := λ _ _, x00.

(** A device handle and executors with a fixed outcome, for the worked
    examples. *)
Definition emulator : Adb unit :=
  Build_Adb unit tt (js "adb") (js "emulator-5554").

Definition exec_outcome (out : promise jsstring)
  : unit → jsstring → list jsstring → option unit → value → promise jsstring :=
  λ _ _ _ _ _, out.

(** An executor that answers with the timeout it was given, in
    milliseconds, as one code unit. *)
Definition exec_timeout
  : unit → jsstring → list jsstring → option unit → value → promise jsstring :=
  λ _ _ _ _ timeout,
    match timeout with
    | VNum ms => Fulfilled [Z.to_N ms]
    | _ => Rejected (TypeError "timeout")
    end.

(** A process listing as the device prints it. *)
Definition ps_header : jsstring :=
  js "USER     PID   PPID  VSIZE  RSS     WCHAN    PC         NAME".

Definition ps_tcpdump_line : jsstring :=
  js "root      1234  1     1692   524   c0222c44 4008e0e4 S /data/local/tmp/tcpdump".

Definition ps_tcpdump : jsstring :=
  ps_header ++ [CR; LF] ++ ps_tcpdump_line ++ [CR; LF].

(** A line of the process listing that is not skipped as empty. *)
Definition data_line (line : jsstring) : Prop := line ≠ [].

(** A data line with the nine columns of [ps]. *)
Definition nine_fields (line : jsstring) : Prop :=
  data_line line → length (split re_spaces line) = 9.

#[global] Instance data_line_dec line : Decision (data_line line).
Proof. unfold data_line. apply _. Defined.

#[global] Instance nine_fields_dec line : Decision (nine_fields line).
Proof. unfold nine_fields. apply _. Defined.

(** The process identifier of a line: its second column. *)
Definition pid_of (line : jsstring) : value := js_nth (split re_spaces line) 1.

(** The invariant of the loop of [dos2unix] before position [origPos]: the
    input [inp] up to there, normalised, is what has been written to the
    store [ret] of the result followed by the span not yet copied. *)
Definition dos2unix_inv (inp ret : list byte) (origPos : nat) (st : locals)
  : Prop :=
  origPosAfterNewline st ≤ origPos ∧
  retLen st ≤ origPosAfterNewline st ∧
  length ret = length inp ∧
  (inp !! (origPos - 1) = Some x0d → origPosAfterNewline st < origPos) ∧
  crlf_to_lf x0d x0a (take origPos inp) =
    take (retLen st) ret ++
    take (origPos - origPosAfterNewline st) (drop (origPosAfterNewline st) inp).

(** ** The constructor *)

(** An optional string argument, or an environment variable: [None] is
    [undefined]. *)
Definition opt_value (a : option jsstring) : value :=
  match a with
  | Some s => VStr s
  | None => VUndefined
  end.

(** [a || b] on optional strings, and with a string on the right. *)
Definition or_opt (a b : option jsstring) : option jsstring :=
  if truthy (opt_value a) then a else b.

Definition or_string (a : option jsstring) (b : jsstring) : jsstring :=
  match a with
  | Some s => if truthy (VStr s) then s else b
  | None => b
  end.

(** [new Adb(app, serial, adbCommand)], with the value [ANDROID_ADB] that
    [process.env.ANDROID_ADB] has when the constructor runs. *)
Definition new_Adb {App : Type} (app : App) (serial : jsstring)
    (adbCommand ANDROID_ADB : option jsstring) : Adb App :=
  Build_Adb App app (or_string (or_opt adbCommand ANDROID_ADB) (js "adb")) serial.

(** ** More vocabulary for the statements *)

Section Counting.

Context {A : Type} `{EqDecision A} (cr lf : A).

(** The number of [cr lf] pairs of [l]. *)
Fixpoint count_crlf (l : list A) : nat :=
  match l with
  | [] => 0
  | x :: t =>
      (if bool_decide (x = cr ∧ head t = Some lf) then 1 else 0) + count_crlf t
  end.

End Counting.

(** What the specification says of [pathExists]: the status that the shell
    command echoes is the final token of its stdout.  [echo] ends what it
    prints with a line terminator, so the token is taken as the last line
    of the stdout that is not empty (the empty string when there is none);
    the line terminators are not part of it. *)
Definition echoed_status (stdout : jsstring) : jsstring :=
  default [] (last (filter (λ line, line ≠ []) (split re_opt_cr_lf stdout))).

(** The code unit with the value of a byte. *)
Definition unit_of_byte (b : byte) : char16 := Byte.to_N b.

(** A string without white space. *)
Definition no_space (f : jsstring) : Prop := Forall (λ c, is_space c = false) f.

(** * Properties *)

(** ** Pairs of carriage return and line feed in a sequence *)

Section NormalizeFacts.

Context {A : Type} `{EqDecision A} (cr lf : A).
Hypothesis cr_lf : cr ≠ lf.

Local Abbreviation norm := (crlf_to_lf cr lf).

Lemma crlf_to_lf_pair t : norm (cr :: lf :: t) = lf :: norm t.
Proof. simpl. rewrite bool_decide_eq_true_2; auto. Qed.

Lemma crlf_to_lf_other x t :
  ¬ (x = cr ∧ head t = Some lf) → norm (x :: t) = x :: norm t.
Proof.
  intros Hn. destruct t as [|y t]; [done|].
  cbn [crlf_to_lf]. rewrite bool_decide_eq_false_2; [done|].
  intros [-> ->]. by apply Hn.
Qed.

(** Induction along the cases of [crlf_to_lf]. *)
Lemma crlf_ind (P : list A → Prop) :
  P [] →
  (∀ t, P t → P (cr :: lf :: t)) →
  (∀ x t, ¬ (x = cr ∧ head t = Some lf) → P t → P (x :: t)) →
  ∀ l, P l.
Proof.
  intros Hnil Hpair Hother l.
  cut (P l ∧ ∀ x, P (x :: l)); [tauto|].
  induction l as [|y t [IHt IHc]].
  - split; [done|]. intros x. apply Hother; [|done]. by intros [_ ?].
  - split; [apply IHc|]. intros x.
    destruct (decide (x = cr ∧ y = lf)) as [[-> ->]|Hn].
    + by apply Hpair.
    + apply Hother; [|apply IHc]. simpl. intros [-> [= ->]]. by apply Hn.
Qed.

Lemma crlf_to_lf_length l : length (norm l) ≤ length l.
Proof.
  induction l as [|t IH|x t Hn IH] using crlf_ind; [done|..].
  - rewrite crlf_to_lf_pair. simpl. lia.
  - rewrite crlf_to_lf_other by done. simpl. lia.
Qed.

Lemma crlf_to_lf_id l : has_crlf cr lf l = false → norm l = l.
Proof.
  induction l as [|t IH|x t Hn IH] using crlf_ind; [done|..].
  - simpl. rewrite bool_decide_eq_true_2; [done|auto].
  - cbn [has_crlf]. intros [_ Ht]%orb_false_iff.
    rewrite crlf_to_lf_other by done. by rewrite IH.
Qed.

Lemma crlf_to_lf_length_eq l :
  length (norm l) = length l → has_crlf cr lf l = false.
Proof.
  induction l as [|t IH|x t Hn IH] using crlf_ind; [done|..].
  - rewrite crlf_to_lf_pair. simpl. pose proof (crlf_to_lf_length t). lia.
  - rewrite crlf_to_lf_other by done. cbn [has_crlf length]. intros Hl.
    rewrite bool_decide_eq_false_2 by done. apply IH. lia.
Qed.

(** [has_crlf] says that some position holds a pair. *)
Lemma has_crlf_lookup l :
  has_crlf cr lf l = true ↔ ∃ i, l !! i = Some cr ∧ l !! S i = Some lf.
Proof.
  clear cr_lf. induction l as [|x t IH]; simpl.
  - split; [done|]. by intros (i & ? & _).
  - rewrite orb_true_iff, bool_decide_eq_true, IH. split.
    + intros [[-> Hh]|(i & ? & ?)]; [|by exists (S i)].
      exists 0. split; [done|]. by destruct t; simplify_eq/=.
    + intros ([|i] & H1 & H2); simplify_eq/=.
      * left. split; [done|]. by destruct t; simplify_eq/=.
      * right. eauto.
Qed.

Lemma has_cr_crlf_lookup l :
  has_cr_crlf cr lf l = true ↔
  ∃ i, l !! i = Some cr ∧ l !! S i = Some cr ∧ l !! S (S i) = Some lf.
Proof.
  clear cr_lf. induction l as [|x t IH]; simpl.
  - split; [done|]. by intros (i & ? & _).
  - rewrite orb_true_iff, bool_decide_eq_true, IH. split.
    + intros [(-> & Hh & Hhh)|(i & ? & ? & ?)]; [|by exists (S i)].
      exists 0. destruct t as [|? [|? ?]]; by simplify_eq/=.
    + intros ([|i] & H1 & H2 & H3); simplify_eq/=.
      * left. destruct t as [|? [|? ?]]; by simplify_eq/=.
      * right. eauto.
Qed.

Lemma crlf_to_lf_head l :
  head (norm l) =
  if bool_decide (head l = Some cr ∧ head (tail l) = Some lf) then Some lf
  else head l.
Proof.
  destruct l as [|x [|y t]]; simpl; repeat case_bool_decide; naive_solver.
Qed.

(** Normalising in two pieces, when the cut does not fall inside a pair. *)
Lemma crlf_to_lf_app a b :
  ¬ (last a = Some cr ∧ head b = Some lf) →
  norm (a ++ b) = norm a ++ norm b.
Proof.
  induction a as [|t IH|x t Hn IH] using crlf_ind; intros Hcut; [done|..].
  - cbn [app]. rewrite !crlf_to_lf_pair, IH; [done|].
    intros [Hl ?]. apply Hcut. split; [|done].
    rewrite !last_cons, Hl. done.
  - cbn [app]. rewrite !crlf_to_lf_other, IH; [done| |done|].
    + intros [Hl ?]. apply Hcut. split; [|done]. by rewrite last_cons, Hl.
    + intros [-> Hh]. destruct t as [|y t]; simpl in *.
      * by apply Hcut.
      * by apply Hn.
Qed.

Lemma crlf_to_lf_snoc a x :
  ¬ (last a = Some cr ∧ x = lf) → norm (a ++ [x]) = norm a ++ [x].
Proof.
  intros Hn. rewrite crlf_to_lf_app; [done|]. simpl. naive_solver.
Qed.

Lemma crlf_to_lf_snoc_pair a : norm (a ++ [cr; lf]) = norm a ++ [lf].
Proof.
  rewrite crlf_to_lf_app; [by rewrite crlf_to_lf_pair|]. simpl. naive_solver.
Qed.

(** A pair survives normalisation exactly where a [cr] stood before a pair. *)
Lemma has_crlf_crlf_to_lf l : has_crlf cr lf (norm l) = has_cr_crlf cr lf l.
Proof.
  induction l as [|t IH|x t Hn IH] using crlf_ind; [done|..].
  - rewrite crlf_to_lf_pair. cbn [has_crlf has_cr_crlf head tail]. rewrite IH.
    rewrite !bool_decide_eq_false_2; [done|naive_solver..].
  - rewrite crlf_to_lf_other by done. cbn [has_crlf has_cr_crlf]. rewrite IH.
    f_equal. apply bool_decide_ext. rewrite crlf_to_lf_head.
    case_bool_decide; naive_solver.
Qed.

(** Pieces without a pair, with pairs between them, come out with single
    line feeds between them. *)
Lemma crlf_to_lf_joined segs :
  Forall (λ seg, has_crlf cr lf seg = false) segs →
  norm (joined [cr; lf] segs) = joined [lf] segs.
Proof.
  induction segs as [|seg rest IH]; intros Hall; [done|].
  apply Forall_cons in Hall as [Hseg Hrest].
  destruct rest as [|seg' rest]; [by apply crlf_to_lf_id|].
  specialize (IH Hrest).
  change (joined ?sep (seg :: seg' :: rest))
    with (seg ++ sep ++ joined sep (seg' :: rest)).
  rewrite crlf_to_lf_app by (simpl; naive_solver).
  cbn [app]. by rewrite crlf_to_lf_pair, IH, crlf_to_lf_id.
Qed.

Lemma crlf_to_lf_idemp_iff l :
  norm (norm l) = norm l ↔ has_cr_crlf cr lf l = false.
Proof.
  rewrite <-has_crlf_crlf_to_lf. split.
  - intros Heq. apply crlf_to_lf_length_eq. by rewrite Heq.
  - apply crlf_to_lf_id.
Qed.

End NormalizeFacts.

(** ** The built-ins at the regular expressions of the source *)

(** [s.replace(/\r\n/g, '\n')] is the normalisation of the specification. *)
Lemma replace_crlf s : replace re_crlf [LF] s = crlf_to_lf CR LF s.
Proof.
  unfold replace.
  induction s as [|t IH|x t Hn IH] using (crlf_ind CR LF); [done|..].
  - rewrite crlf_to_lf_pair by done. simpl. by rewrite IH.
  - rewrite crlf_to_lf_other by done. cbn [replace_go].
    replace (re_crlf (x :: t)) with (@None nat); [by rewrite IH|].
    destruct t as [|y t]; [done|]. simpl in *.
    rewrite bool_decide_eq_false_2; [done|naive_solver].
Qed.

Lemma indexOf_from_range pat s i :
  indexOf_from pat s i = (-1)%Z ∨ (Z.of_nat i ≤ indexOf_from pat s i)%Z.
Proof.
  revert i. induction s as [|c s IH]; intros i; simpl; case_bool_decide;
    try (right; lia); [by left|].
  destruct (IH (S i)) as [->|?]; [by left|right; lia].
Qed.

(** [s.indexOf(pat) === 0] says that [s] begins with [pat]. *)
Lemma indexOf_0 s pat : indexOf s pat = 0%Z ↔ pat `prefix_of` s.
Proof.
  unfold indexOf. destruct s as [|c s]; simpl; case_bool_decide; try done.
  destruct (indexOf_from_range pat s 1) as [->|?]; [done|]. split; [lia|done].
Qed.

(** A line that begins with ["USER "] has ["USER"] as its first field. *)
Lemma split_header line :
  js "USER " `prefix_of` line →
  line ≠ [] ∧ js_nth (split re_spaces line) 0 = VStr (js "USER").
Proof. by intros [k ->]. Qed.

(** ** The lines of the process listing *)

Section PsLines.

Context (stdout : jsstring).

Lemma ps_line_empty i pids : ps_line stdout [] i pids = Return pids.
Proof. done. Qed.

Lemma ps_line_data line i pids :
  line ≠ [] → 0 < i →
  ps_line stdout line i pids =
  if decide (length (split re_spaces line) = 9)
  then Return (pids ++ [pid_of line])
  else Throws (Error "Failed to parse ps output line %d: %j"
                 [VNum (Z.of_nat i); VStr stdout]).
Proof.
  intros Hne Hi. unfold ps_line.
  rewrite bool_decide_eq_false_2 by (by destruct line).
  rewrite (bool_decide_eq_false_2 (i = 0)) by lia. cbn [andb].
  by destruct (decide (length (split re_spaces line) = 9));
    [rewrite bool_decide_eq_true_2|rewrite bool_decide_eq_false_2].
Qed.

Lemma forEach_ps_line_ok ls : ∀ i pids,
  0 < i → Forall nine_fields ls →
  forEach (ps_line stdout) ls i pids
  = Return (pids ++ (pid_of <$> filter data_line ls)).
Proof.
  induction ls as [|line ls IH]; intros i pids Hi Hall; simpl.
  - by rewrite app_nil_r.
  - apply Forall_cons in Hall as [Hline Hall].
    destruct (decide (line = [])) as [->|Hne].
    + rewrite ps_line_empty, IH by (done || lia).
      by rewrite filter_cons_False by (unfold data_line; naive_solver).
    + rewrite ps_line_data, decide_True by (done || by apply Hline).
      rewrite IH by (done || lia).
      rewrite filter_cons_True by done. by rewrite <-app_assoc.
Qed.

Lemma forEach_ps_line_bad good bad more : ∀ i pids,
  0 < i → Forall nine_fields good → ¬ nine_fields bad →
  forEach (ps_line stdout) (good ++ bad :: more) i pids
  = Throws (Error "Failed to parse ps output line %d: %j"
              [VNum (Z.of_nat (i + length good)); VStr stdout]).
Proof.
  induction good as [|line good IH]; intros i pids Hi Hall Hbad; simpl.
  - assert (bad ≠ []) as Hne by (intros ->; apply Hbad; by intros []).
    rewrite ps_line_data, decide_False
      by first [done | intros ?; apply Hbad; by intros _].
    by rewrite Nat.add_0_r.
  - apply Forall_cons in Hall as [Hline Hall].
    replace (i + S (length good)) with (S i + length good) by lia.
    destruct (decide (line = [])) as [->|Hne].
    + rewrite ps_line_empty. apply IH; (done || lia).
    + rewrite ps_line_data, decide_True by (done || by apply Hline).
      apply IH; (done || lia).
Qed.

End PsLines.

Lemma first_bad_line (ls : list jsstring) :
  Forall nine_fields ls ∨
  ∃ good bad more,
    ls = good ++ bad :: more ∧ Forall nine_fields good ∧ ¬ nine_fields bad.
Proof.
  induction ls as [|line ls IH]; [by left|].
  destruct (decide (nine_fields line)) as [Hline|Hline].
  - destruct IH as [IH|(good & bad & more & -> & Hgood & Hbad)].
    + left. by constructor.
    + right. exists (line :: good), bad, more. by repeat constructor.
  - right. by exists [], line, ls.
Qed.

Lemma pid_of_nine_fields line :
  data_line line → nine_fields line →
  ∃ p, split re_spaces line !! 1 = Some p ∧ pid_of line = VStr p.
Proof.
  intros Hd H9. specialize (H9 Hd). unfold pid_of, js_nth.
  destruct (split re_spaces line) as [|f0 [|p fields]]; [done..|].
  by exists p.
Qed.

(** ** Buffers in the heap *)

Lemma bytes_of_length h b : buffer_ok h b → length (bytes_of h b) = buf_len b.
Proof.
  intros [_ Hlen]. unfold bytes_of. rewrite length_take, length_drop. lia.
Qed.

Lemma bytes_of_app h k b :
  buf_mem b < length h → bytes_of (h ++ k) b = bytes_of h b.
Proof. intros Hm. unfold bytes_of. by rewrite lookup_app_l. Qed.

Lemma bytes_of_new h s n : bytes_of (h ++ [s]) (Buffer (length h) 0 n) = take n s.
Proof. unfold bytes_of. simpl. by rewrite list_lookup_middle. Qed.

Lemma alter_new (f : list byte → list byte) (h : heap) s :
  alter f (length h) (h ++ [s]) = h ++ [f s].
Proof.
  replace (length h) with (length h + 0) by lia. by rewrite alter_app_r.
Qed.

Lemma buffer_ok_app h k b : buffer_ok h b → buffer_ok (h ++ k) b.
Proof.
  intros [Hm Hlen]. split.
  - rewrite length_app. lia.
  - by rewrite lookup_app_l.
Qed.

Lemma blit_length pos data store :
  pos + length data ≤ length store → length (blit pos data store) = length store.
Proof.
  intros Hle. unfold blit. rewrite !length_app, length_take, length_drop. lia.
Qed.

Lemma take_blit pos data store :
  pos ≤ length store →
  take (pos + length data) (blit pos data store) = take pos store ++ data.
Proof.
  intros Hle. unfold blit. rewrite app_assoc.
  apply take_app_length'. rewrite length_app, length_take. lia.
Qed.

Lemma blit_nil pos store : blit pos [] store = store.
Proof. unfold blit. simpl. rewrite Nat.add_0_r. apply take_drop. Qed.

(** ** The loop of [dos2unix] *)

Section Dos2unixBuffer.

Context (junk : loc → nat → byte) (h0 : heap) (origBuf : buffer).
Hypothesis origBuf_ok : buffer_ok h0 origBuf.

Local Abbreviation inp := (bytes_of h0 origBuf).
Local Abbreviation n := (buf_len origBuf).
Local Abbreviation retBuf := (Buffer (length h0) 0 (buf_len origBuf)).
Local Abbreviation norm := (crlf_to_lf x0d x0a).

Lemma buf_get_orig s i :
  buf_get origBuf i (h0 ++ [s]) = Ok (inp !! i) (h0 ++ [s]).
Proof.
  unfold buf_get. rewrite bytes_of_app by apply origBuf_ok.
  case_decide; [done|]. rewrite lookup_ge_None_2; [done|].
  rewrite bytes_of_length by done. lia.
Qed.

Lemma buf_copy_orig s rl a e :
  a ≤ e → e ≤ n → rl + (e - a) ≤ n →
  buf_copy origBuf retBuf rl a e (h0 ++ [s]) =
  Ok (e - a) (h0 ++ [blit rl (take (e - a) (drop a inp)) s]).
Proof.
  intros Hae Hen Hrl. unfold buf_copy. rewrite decide_True by (simpl; lia).
  rewrite bytes_of_app by apply origBuf_ok. simpl. by rewrite alter_new.
Qed.

Lemma buf_set_ret s i v :
  i < n → buf_set retBuf i v (h0 ++ [s]) = Ok tt (h0 ++ [<[i := v]> s]).
Proof.
  intros Hi. unfold buf_set. rewrite decide_True by (simpl; lia).
  simpl. by rewrite alter_new.
Qed.

Lemma dos2unix_body_spec p apn rl s :
  1 ≤ p → p < n → apn ≤ p → rl ≤ apn →
  dos2unix_body origBuf retBuf p (Locals apn rl) (h0 ++ [s]) =
  if bool_decide (inp !! p = Some x0a ∧ inp !! (p - 1) = Some x0d)
  then Ok (Locals (p + 1) (rl + (p - 1 - apn) + 1))
          (h0 ++ [<[rl + (p - 1 - apn) := x0a]>
                    (blit rl (take (p - 1 - apn) (drop apn inp)) s)])
  else Ok (Locals apn rl) (h0 ++ [s]).
Proof.
  intros Hp Hpn Hap Hrl. unfold dos2unix_body, bind.
  rewrite !buf_get_orig. cbn [origPosAfterNewline retLen].
  destruct (decide (inp !! p = Some x0a ∧ inp !! (p - 1) = Some x0d))
    as [[Hc Hd]|Hno].
  - rewrite (bool_decide_eq_true_2 (_ ∧ _)) by done.
    rewrite !bool_decide_eq_true_2 by done. cbn [andb].
    destruct (Z.ltb_spec 0 (Z.of_nat p - Z.of_nat apn - 1)) as [Hpos|Hneg].
    + rewrite buf_copy_orig by lia.
      replace (Z.to_nat (Z.of_nat p - Z.of_nat apn - 1)) with (p - 1 - apn) by lia.
      unfold ret. rewrite buf_set_ret by lia. done.
    + unfold ret. rewrite buf_set_ret by lia.
      replace (p - 1 - apn) with 0 by lia.
      by rewrite take_0, blit_nil, Nat.add_0_r.
  - rewrite (bool_decide_eq_false_2 (_ ∧ _)) by done.
    destruct (decide (Some x0a = inp !! p)) as [E1|E1];
      [|by rewrite (bool_decide_eq_false_2 _ E1)].
    destruct (decide (Some x0d = inp !! (p - 1))) as [E2|E2];
      [by destruct Hno|].
    by rewrite (bool_decide_eq_false_2 _ E2), andb_false_r.
Qed.

Lemma inp_length : length inp = n.
Proof. by apply bytes_of_length. Qed.

Lemma dos2unix_body_inv p st s :
  1 ≤ p → p < n → dos2unix_inv inp s p st →
  ∃ st' s',
    dos2unix_body origBuf retBuf p st (h0 ++ [s]) = Ok st' (h0 ++ [s']) ∧
    dos2unix_inv inp s' (S p) st'.
Proof.
  intros Hp Hpn. destruct st as [apn rl].
  intros (Hap & Hrl & Hlen & Hcr & Hnorm). simpl in *.
  pose proof inp_length as Hn.
  rewrite dos2unix_body_spec by lia.
  destruct (lookup_lt_is_Some_2 inp p) as [x Hx]; [lia|].
  assert (Hlast : last (take p inp) = inp !! (p - 1)).
  { rewrite last_lookup, length_take_le by lia.
    rewrite lookup_take_lt by lia. f_equal. lia. }
  case_bool_decide as Hm.
  - destruct Hm as [Hc Hd]. specialize (Hcr Hd).
    eexists _, _. split; [done|]. unfold dos2unix_inv. simpl.
    set (k := p - 1 - apn). set (seg := take k (drop apn inp)).
    assert (Hseg : length seg = k).
    { unfold seg. rewrite length_take, length_drop. lia. }
    split; [lia|]. split; [lia|].
    split; [rewrite length_insert, blit_length; lia|].
    split; [rewrite Nat.sub_0_r, Hc; by intros [=]|].
    replace (S p - (p + 1)) with 0 by lia. rewrite take_0, app_nil_r.
    replace (rl + k + 1) with (S (rl + k)) by lia.
    rewrite (take_S_r (<[_:=_]> _) _ x0a)
      by (apply list_lookup_insert_eq; rewrite blit_length; lia).
    rewrite take_insert_ge by lia.
    rewrite <-Hseg at 1. rewrite take_blit by lia.
    assert (Hpre : take p inp = take (p - 1) inp ++ [x0d]).
    { replace p with (S (p - 1)) at 1 by lia. by apply take_S_r. }
    rewrite (take_S_r _ _ _ Hc), Hpre, <-app_assoc. simpl.
    rewrite crlf_to_lf_snoc_pair by done. f_equal.
    rewrite Hpre, crlf_to_lf_snoc in Hnorm by naive_solver.
    assert (Hspan : take (p - apn) (drop apn inp) = seg ++ [x0d]).
    { replace (p - apn) with (S k) by lia. apply take_S_r.
      rewrite lookup_drop. by replace (apn + k) with (p - 1) by lia. }
    rewrite Hspan, app_assoc in Hnorm. by apply app_inj_tail in Hnorm as [? _].
  - eexists _, _. split; [done|]. unfold dos2unix_inv. simpl.
    split; [lia|]. split; [lia|]. split; [done|]. split; [lia|].
    rewrite (take_S_r _ _ _ Hx), crlf_to_lf_snoc.
    + rewrite Hnorm, <-app_assoc. f_equal.
      replace (S p - apn) with (S (p - apn)) by lia. symmetry. apply take_S_r.
      rewrite lookup_drop. by replace (apn + (p - apn)) with p by lia.
    + rewrite Hlast. intros [? ->]. by apply Hm.
Qed.

Lemma dos2unix_loop_inv k : ∀ p st s,
  1 ≤ p → k = 0 ∨ p + k ≤ n → dos2unix_inv inp s p st →
  ∃ st' s',
    for_ (seq p k) (dos2unix_body origBuf retBuf) st (h0 ++ [s])
      = Ok st' (h0 ++ [s']) ∧
    dos2unix_inv inp s' (p + k) st'.
Proof.
  induction k as [|k IH]; intros p st s Hp Hk Hinv.
  - exists st, s. by rewrite Nat.add_0_r.
  - simpl. unfold bind.
    destruct (dos2unix_body_inv p st s) as (st1 & s1 & -> & Hinv1);
      [lia|lia|done|].
    destruct (IH (S p) st1 s1) as (st' & s' & Hrun & Hinv'); [lia|lia|done|].
    exists st', s'. split; [done|]. by replace (p + S k) with (S p + k) by lia.
Qed.

Lemma dos2unix_inv_init s : length s = n → dos2unix_inv inp s 1 (Locals 0 0).
Proof.
  intros Hs. pose proof inp_length. unfold dos2unix_inv. simpl.
  split; [lia|]. split; [lia|]. split; [lia|]. split; [lia|].
  rewrite drop_0. by destruct inp as [|x [|y t]].
Qed.

(** The Buffer branch returns, with a view of a new store that shows the
    normalised bytes; the stores allocated before are as they were. *)
Lemma dos2unix_Buffer_spec :
  ∃ r s,
    dos2unix_Buffer junk origBuf h0 = Ok r (h0 ++ [s]) ∧
    buf_mem r = length h0 ∧
    buffer_ok (h0 ++ [s]) r ∧
    bytes_of (h0 ++ [s]) r = norm inp.
Proof.
  pose proof inp_length as Hn.
  unfold dos2unix_Buffer, bind, new_Buffer.
  set (s0 := junk (length h0) <$> seq 0 n).
  assert (Hs0 : length s0 = n) by (unfold s0; by rewrite length_fmap, length_seq).
  destruct (dos2unix_loop_inv (n - 1) 1 (Locals 0 0) s0)
    as ([apn rl] & s & -> & Hinv); [lia|lia|by apply dos2unix_inv_init|].
  destruct Hinv as (Hap & Hrl & Hlen & _ & Hnorm).
  cbn [origPosAfterNewline retLen] in *.
  assert (Hall : norm inp = take rl s ++ drop apn inp).
  { rewrite (take_ge inp) in Hnorm by lia. rewrite Hnorm.
    f_equal. apply take_ge. rewrite length_drop. lia. }
  assert (Hfresh : ∀ s' m, m ≤ length s' →
            buffer_ok (h0 ++ [s']) (Buffer (length h0) 0 m)).
  { intros s' m Hm. split; simpl.
    - rewrite length_app. simpl. lia.
    - by rewrite list_lookup_middle. }
  destruct (Z.ltb_spec 0 (Z.of_nat n - Z.of_nat apn)) as [Hpos|Hneg].
  - rewrite buf_copy_orig by lia. unfold ret.
    replace (Z.to_nat (Z.of_nat n - Z.of_nat apn)) with (n - apn) by lia.
    rewrite (take_ge (drop apn inp)) by (rewrite length_drop; lia).
    assert (Hd : length (drop apn inp) = n - apn) by (rewrite length_drop; lia).
    eexists _, _. split; [done|].
    assert (Hbl : length (blit rl (drop apn inp) s) = n)
      by (rewrite blit_length; lia).
    case_decide; cbn [buf_len] in *; simpl.
    + split; [done|]. split; [apply Hfresh; lia|].
      unfold buf_slice. simpl.
      replace ((rl + (n - apn)) `min` n) with (rl + (n - apn)) by lia.
      rewrite Nat.sub_0_r, bytes_of_new, <-Hd, take_blit by lia. done.
    + split; [done|]. split; [apply Hfresh; lia|].
      rewrite bytes_of_new. replace n with (rl + length (drop apn inp)) at 1 by lia.
      rewrite take_blit by lia. done.
  - unfold ret. eexists _, _. split; [done|].
    rewrite (drop_ge inp apn), app_nil_r in Hall by lia.
    case_decide; cbn [buf_len] in *; simpl.
    + split; [done|]. split; [apply Hfresh; lia|].
      unfold buf_slice. simpl.
      replace (rl `min` n) with rl by lia.
      by rewrite Nat.sub_0_r, bytes_of_new.
    + split; [done|]. split; [apply Hfresh; lia|].
      rewrite bytes_of_new, Hall. by rewrite !take_ge by lia.
Qed.

End Dos2unixBuffer.

(** ** [dos2unix] on its two kinds of input *)

Lemma dos2unix_VStr junk h s :
  dos2unix junk (VStr s) h = Ok (VStr (crlf_to_lf CR LF s)) h.
Proof.
  unfold dos2unix. destruct s as [|c s]; [done|].
  cbn [truthy negb]. rewrite bool_decide_eq_false_2 by done.
  cbn [negb]. unfold ret. by rewrite replace_crlf.
Qed.

Lemma dos2unix_VBuf junk h b :
  buffer_ok h b →
  ∃ r s,
    dos2unix junk (VBuf b) h = Ok (VBuf r) (h ++ [s]) ∧
    buf_mem r = length h ∧
    buffer_ok (h ++ [s]) r ∧
    bytes_of (h ++ [s]) r = crlf_to_lf x0d x0a (bytes_of h b).
Proof.
  intros Hok. destruct (dos2unix_Buffer_spec junk h b Hok) as (r & s & Hrun & ?).
  exists r, s. split; [|done]. unfold dos2unix, bind. simpl. by rewrite Hrun.
Qed.

Lemma no_crlf_lookup {A} `{EqDecision A} (cr lf : A) (l : list A) :
  has_crlf cr lf l = false ↔ ¬ ∃ i, l !! i = Some cr ∧ l !! S i = Some lf.
Proof.
  rewrite <-has_crlf_lookup. destruct (has_crlf cr lf l); naive_solver.
Qed.

(** * The claims *)

(** C1. On a Buffer, [dos2unix] returns a Buffer that shows the bytes of
    its input with every pair 0x0D 0x0A replaced by one 0x0A and every
    other byte kept as it is and where it is, a 0x0D that is not followed by
    0x0A included: pieces without a pair that come with pairs between them
    are returned with single 0x0A between them, and [41 0D 42] comes back as
    [41 0D 42]. *)
Theorem dos2unix_Buffer_replaces_crlf junk h b :
  buffer_ok h b →
  ∃ r h',
    dos2unix junk (VBuf b) h = Ok (VBuf r) h' ∧
    bytes_of h' r = crlf_to_lf x0d x0a (bytes_of h b) ∧
    (∀ segs,
       Forall (λ seg, has_crlf x0d x0a seg = false) segs →
       bytes_of h b = joined [x0d; x0a] segs →
       bytes_of h' r = joined [x0a] segs) ∧
    (bytes_of h b = [x41; x0d; x42] → bytes_of h' r = [x41; x0d; x42]).
Proof.
  intros Hok. destruct (dos2unix_VBuf junk h b Hok) as (r & s & Hrun & _ & _ & Hb).
  exists r, (h ++ [s]). split; [done|]. split; [done|]. split.
  - intros segs Hsegs Hin. by rewrite Hb, Hin, crlf_to_lf_joined.
  - intros Hin. by rewrite Hb, Hin.
Qed.

Lemma dos2unix_Buffer_replaces_crlf_witness :
  ∃ r h',
    dos2unix zeroed (VBuf (Buffer 0 0 3)) [[x41; x0d; x42]] = Ok (VBuf r) h' ∧
    bytes_of h' r
      = crlf_to_lf x0d x0a (bytes_of [[x41; x0d; x42]] (Buffer 0 0 3)) ∧
    (∀ segs,
       Forall (λ seg, has_crlf x0d x0a seg = false) segs →
       bytes_of [[x41; x0d; x42]] (Buffer 0 0 3) = joined [x0d; x0a] segs →
       bytes_of h' r = joined [x0a] segs) ∧
    (bytes_of [[x41; x0d; x42]] (Buffer 0 0 3) = [x41; x0d; x42] →
     bytes_of h' r = [x41; x0d; x42]).
Proof.
  apply (dos2unix_Buffer_replaces_crlf zeroed [[x41; x0d; x42]] (Buffer 0 0 3)).
  unfold buffer_ok. simpl. lia.
Defined.

(** C2, as amended.  Applying [dos2unix] to its own result gives the same
    content again exactly when the input holds no 0x0D that is followed by
    a pair 0x0D 0x0A, for strings and for Buffers. *)
Theorem dos2unix_twice junk :
  (∀ h s, ∃ s1 s2,
     dos2unix junk (VStr s) h = Ok (VStr s1) h ∧
     dos2unix junk (VStr s1) h = Ok (VStr s2) h ∧
     (s2 = s1 ↔ has_cr_crlf CR LF s = false)) ∧
  (∀ h b, buffer_ok h b →
     ∃ r1 h1 r2 h2,
       dos2unix junk (VBuf b) h = Ok (VBuf r1) h1 ∧
       dos2unix junk (VBuf r1) h1 = Ok (VBuf r2) h2 ∧
       (bytes_of h2 r2 = bytes_of h1 r1 ↔
        has_cr_crlf x0d x0a (bytes_of h b) = false)).
Proof.
  split.
  - intros h s. eexists _, _. rewrite !dos2unix_VStr.
    split; [done|]. split; [done|]. by apply crlf_to_lf_idemp_iff.
  - intros h b Hok.
    destruct (dos2unix_VBuf junk h b Hok) as (r1 & s1 & Hrun1 & _ & Hok1 & Hb1).
    destruct (dos2unix_VBuf junk _ r1 Hok1) as (r2 & s2 & Hrun2 & _ & _ & Hb2).
    eexists _, _, _, _. split; [done|]. split; [done|].
    rewrite Hb2, Hb1. by apply crlf_to_lf_idemp_iff.
Qed.

Lemma dos2unix_twice_witness :
  ∃ r1 h1 r2 h2,
    dos2unix zeroed (VBuf (Buffer 0 0 4)) [[x61; x0d; x0a; x62]] = Ok (VBuf r1) h1 ∧
    dos2unix zeroed (VBuf r1) h1 = Ok (VBuf r2) h2 ∧
    (bytes_of h2 r2 = bytes_of h1 r1 ↔
     has_cr_crlf x0d x0a (bytes_of [[x61; x0d; x0a; x62]] (Buffer 0 0 4)) = false).
Proof.
  apply (proj2 (dos2unix_twice zeroed)). unfold buffer_ok. simpl. lia.
Defined.

(** C2, as stated, fails: the second pass over [0D 0D 0A] removes the 0x0D
    that the first pass left in front of the new 0x0A. *)
Lemma dos2unix_not_idempotent :
  (∃ r1 h1 r2 h2,
     dos2unix zeroed (VBuf (Buffer 0 0 3)) [[x0d; x0d; x0a]] = Ok (VBuf r1) h1 ∧
     dos2unix zeroed (VBuf r1) h1 = Ok (VBuf r2) h2 ∧
     bytes_of h1 r1 = [x0d; x0a] ∧ bytes_of h2 r2 = [x0a] ∧
     bytes_of h2 r2 ≠ bytes_of h1 r1) ∧
  dos2unix zeroed (VStr [CR; CR; LF]) [] = Ok (VStr [CR; LF]) [] ∧
  dos2unix zeroed (VStr [CR; LF]) [] = Ok (VStr [LF]) [] ∧
  [LF] ≠ [CR; LF].
Proof.
  split; [|done]. by eexists _, _, _, _.
Qed.

(** C3. The Buffer that [dos2unix] returns is at most as long as its input,
    as long exactly when the input holds no pair 0x0D 0x0A, and then it
    shows the same bytes. *)
Theorem dos2unix_Buffer_length junk h b :
  buffer_ok h b →
  ∃ r h',
    dos2unix junk (VBuf b) h = Ok (VBuf r) h' ∧
    length (bytes_of h' r) = buf_len r ∧
    buf_len r ≤ buf_len b ∧
    (buf_len r = buf_len b ↔
     ¬ ∃ i, bytes_of h b !! i = Some x0d ∧ bytes_of h b !! S i = Some x0a) ∧
    ((¬ ∃ i, bytes_of h b !! i = Some x0d ∧ bytes_of h b !! S i = Some x0a) →
     bytes_of h' r = bytes_of h b).
Proof.
  intros Hok.
  destruct (dos2unix_VBuf junk h b Hok) as (r & s & Hrun & _ & Hokr & Hb).
  exists r, (h ++ [s]). split; [done|].
  pose proof (bytes_of_length _ _ Hokr) as Hlr.
  pose proof (bytes_of_length _ _ Hok) as Hlb.
  rewrite Hb in Hlr. rewrite Hb, <-Hlr, <-Hlb, <-no_crlf_lookup.
  split; [done|]. split; [by apply crlf_to_lf_length|]. split.
  - split; [by apply crlf_to_lf_length_eq|]. intros Hno.
    by rewrite crlf_to_lf_id.
  - by apply crlf_to_lf_id.
Qed.

Lemma dos2unix_Buffer_length_witness :
  ∃ r h',
    dos2unix zeroed (VBuf (Buffer 0 0 3)) [[x41; x0d; x42]] = Ok (VBuf r) h' ∧
    length (bytes_of h' r) = buf_len r ∧
    buf_len r ≤ 3 ∧
    (buf_len r = 3 ↔
     ¬ ∃ i, bytes_of [[x41; x0d; x42]] (Buffer 0 0 3) !! i = Some x0d ∧
            bytes_of [[x41; x0d; x42]] (Buffer 0 0 3) !! S i = Some x0a) ∧
    ((¬ ∃ i, bytes_of [[x41; x0d; x42]] (Buffer 0 0 3) !! i = Some x0d ∧
             bytes_of [[x41; x0d; x42]] (Buffer 0 0 3) !! S i = Some x0a) →
     bytes_of h' r = bytes_of [[x41; x0d; x42]] (Buffer 0 0 3)).
Proof.
  apply (dos2unix_Buffer_length zeroed [[x41; x0d; x42]] (Buffer 0 0 3)).
  unfold buffer_ok. simpl. lia.
Defined.

(** C8. [dos2unix] returns a falsy argument as it is, and leaves the heap
    alone: [null] gives [null], the empty string gives the empty string. *)
Theorem dos2unix_falsy junk h v :
  truthy v = false →
  dos2unix junk v h = Ok v h ∧
  dos2unix junk VNull h = Ok VNull h ∧
  dos2unix junk (VStr []) h = Ok (VStr []) h.
Proof.
  intros Hv. unfold dos2unix. by rewrite Hv.
Qed.

Lemma dos2unix_falsy_witness :
  dos2unix zeroed VUndefined [[x0d; x0a]] = Ok VUndefined [[x0d; x0a]] ∧
  dos2unix zeroed VNull [[x0d; x0a]] = Ok VNull [[x0d; x0a]] ∧
  dos2unix zeroed (VStr []) [[x0d; x0a]] = Ok (VStr []) [[x0d; x0a]].
Proof.
  apply (dos2unix_falsy zeroed [[x0d; x0a]] VUndefined). reflexivity.
Defined.

(** C9. [dos2unix] on a Buffer writes to no memory that was allocated
    before the call, so the input Buffer (and every other one) shows the
    bytes it showed before; the Buffer returned is a view of the one store
    allocated by the call, hence not the input, with or without a pair
    0x0D 0x0A in the input. *)
Theorem dos2unix_Buffer_frame junk h b :
  buffer_ok h b →
  ∃ r h',
    dos2unix junk (VBuf b) h = Ok (VBuf r) h' ∧
    length h' = S (length h) ∧
    (∀ l, l < length h → h' !! l = h !! l) ∧
    (∀ b', buffer_ok h b' → bytes_of h' b' = bytes_of h b') ∧
    h !! buf_mem r = None ∧
    buf_mem r ≠ buf_mem b ∧
    r ≠ b.
Proof.
  intros Hok.
  destruct (dos2unix_VBuf junk h b Hok) as (r & s & Hrun & Hmem & _ & _).
  exists r, (h ++ [s]). split; [done|].
  split; [rewrite length_app; simpl; lia|].
  split; [intros l Hl; by rewrite lookup_app_l|].
  split; [intros b' [Hb' _]; by apply bytes_of_app|].
  destruct Hok as [Hb _].
  split; [apply lookup_ge_None_2; lia|].
  split; [lia|]. intros ->. lia.
Qed.

Lemma dos2unix_Buffer_frame_witness :
  ∃ r h',
    dos2unix zeroed (VBuf (Buffer 1 0 2)) [[x0d; x0a]; [x61; x62]] = Ok (VBuf r) h' ∧
    length h' = 3 ∧
    (∀ l, l < 2 → h' !! l = [[x0d; x0a]; [x61; x62]] !! l) ∧
    (∀ b', buffer_ok [[x0d; x0a]; [x61; x62]] b' →
           bytes_of h' b' = bytes_of [[x0d; x0a]; [x61; x62]] b') ∧
    [[x0d; x0a]; [x61; x62]] !! buf_mem r = None ∧
    buf_mem r ≠ 1 ∧
    r ≠ Buffer 1 0 2.
Proof.
  apply (dos2unix_Buffer_frame zeroed [[x0d; x0a]; [x61; x62]] (Buffer 1 0 2)).
  unfold buffer_ok. simpl. lia.
Defined.

(** ** The command runner *)

Section Runner.

Context {App Options : Type}.
Context (scheduleExec :
  App → jsstring → list jsstring → option Options → value → promise jsstring).
Context (this : Adb App).

(** The device command that [shell] dispatches for [args]. *)
Local Abbreviation dispatched args options timeout :=
  (scheduleExec (app_ this) (adbCommand this)
     (js "-s" :: serial this :: js "shell" :: args) options timeout).

Lemma shell_dispatch args options timeout :
  shell scheduleExec this args options timeout
  = dispatched args options (js_or timeout DEFAULT_TIMEOUT).
Proof. done. Qed.

(** C7. [shell] is [adb] with ["shell"] put before the arguments; [adb] is
    [command_] with ["-s"] and the serial put before the arguments; and
    [command_] hands the arguments to [scheduleExec] with the timeout given
    or, for want of one, 60000. *)
Theorem shell_adb_command_ args options timeout :
  shell scheduleExec this args options timeout
    = adb scheduleExec this ([js "shell"] ++ args) options timeout ∧
  adb scheduleExec this args options timeout
    = command_ scheduleExec this ([js "-s"; serial this] ++ args) options timeout ∧
  command_ scheduleExec this args options timeout
    = scheduleExec (app_ this) (adbCommand this) args options
        (if truthy timeout then timeout else VNum 60000) ∧
  adb scheduleExec this args options timeout
    = scheduleExec (app_ this) (adbCommand this)
        (js "-s" :: serial this :: args) options
        (if truthy timeout then timeout else VNum 60000).
Proof. done. Qed.

(** C10. A falsy timeout, 0 in particular, is replaced by 60000 in
    [command_], [adb] and [shell]; whatever the timeout given, the one
    dispatched is not 0. *)
Theorem falsy_timeout_is_default args options timeout :
  truthy timeout = false →
  command_ scheduleExec this args options timeout
    = scheduleExec (app_ this) (adbCommand this) args options (VNum 60000) ∧
  adb scheduleExec this args options timeout
    = scheduleExec (app_ this) (adbCommand this)
        (js "-s" :: serial this :: args) options (VNum 60000) ∧
  shell scheduleExec this args options timeout
    = scheduleExec (app_ this) (adbCommand this)
        (js "-s" :: serial this :: js "shell" :: args) options (VNum 60000) ∧
  (∀ t, js_or t DEFAULT_TIMEOUT ≠ VNum 0).
Proof.
  intros Hf. unfold shell, adb, command_, js_or. rewrite Hf.
  repeat split; try done.
  intros t. unfold js_or. destruct (truthy t) eqn:Ht; [|done].
  intros ->. done.
Qed.

(** The command line of [exists]. *)
Local Abbreviation ls_status path :=
  [js "ls"; path; js ">"; js "/dev/null"; js "2>&1"; js ";"; js "echo"; js "$?"].

(** X14. [exists] resolves to [true] exactly when the shell command
    resolved with the stdout ["0"] and nothing else, to [false] for every
    other stdout (["00"], ["0 "], ["1"], the empty one), and is rejected
    with the error of the shell command when that is rejected. *)
Theorem exists_iff_stdout_is_0 path :
  (exists_ scheduleExec this path = Fulfilled true ↔
   dispatched (ls_status path) None (VNum 60000) = Fulfilled (js "0")) ∧
  (∀ stdout,
     dispatched (ls_status path) None (VNum 60000) = Fulfilled stdout →
     exists_ scheduleExec this path = Fulfilled (bool_decide (stdout = js "0"))) ∧
  (∀ stdout,
     dispatched (ls_status path) None (VNum 60000) = Fulfilled stdout →
     stdout ∈ [js "00"; js "0 "; js "1"; js ""] →
     exists_ scheduleExec this path = Fulfilled false) ∧
  (∀ e,
     dispatched (ls_status path) None (VNum 60000) = Rejected e →
     exists_ scheduleExec this path = Rejected e).
Proof.
  unfold exists_. rewrite shell_dispatch. unfold js_or, DEFAULT_TIMEOUT. simpl.
  destruct (scheduleExec _ _ _ _ _) as [stdout|e]; simpl.
  - split; [|split; [|split]].
    + split.
      * intros [= Hb]. by apply bool_decide_eq_true in Hb as ->.
      * by intros [= ->].
    + by intros ? [= ->].
    + intros ? [= ->] Hin. f_equal. apply bool_decide_eq_false.
      intros ->. apply (bool_decide_pack _) in Hin. by vm_compute in Hin.
    + done.
  - split; [done|]. split; [done|]. split; [done|]. by intros ? [= ->].
Qed.

End Runner.

Section Listing.

Context {App Options : Type}.
Context (scheduleExec :
  App → jsstring → list jsstring → option Options → value → promise jsstring).
Context (this : Adb App).

(** The outcome of the [ps] command that [getPidsOfProcess] dispatches. *)
Local Abbreviation ps_outcome name :=
  (scheduleExec (app_ this) (adbCommand this)
     [js "-s"; serial this; js "shell"; js "ps"; name] None (VNum 60000)).

Lemma getPidsOfProcess_then name stdout :
  ps_outcome name = Fulfilled stdout →
  getPidsOfProcess scheduleExec this name =
  match ps_parse stdout with
  | Return pids => Fulfilled pids
  | Throws e => Rejected e
  end.
Proof.
  intros Hout. unfold getPidsOfProcess. rewrite shell_dispatch.
  unfold js_or, DEFAULT_TIMEOUT. simpl. by rewrite Hout.
Qed.

(** C5. When the stdout of [ps] splits into no line at all, or its first
    line does not begin with ["USER "], [getPidsOfProcess] is rejected with
    the error ["ps command failed"] that carries the stdout; no process
    identifier is returned. *)
Theorem getPidsOfProcess_without_header name stdout :
  ps_outcome name = Fulfilled stdout →
  (split re_opt_cr_lf stdout = [] ∨
   ∃ line0 rest,
     split re_opt_cr_lf stdout = line0 :: rest ∧ ¬ js "USER " `prefix_of` line0) →
  getPidsOfProcess scheduleExec this name
  = Rejected (Error "ps command failed, output: %j" [VStr stdout]).
Proof.
  intros Hout Hlines. rewrite (getPidsOfProcess_then _ _ Hout).
  unfold ps_parse. destruct Hlines as [->|(line0 & rest & -> & Hno)]; [done|].
  destruct (Z.eqb_spec (indexOf line0 (js "USER ")) 0) as [H0|H0]; [|done].
  by apply indexOf_0 in H0.
Qed.

(** C6. When the first line of the stdout of [ps] begins with ["USER "],
    that line and the empty lines are skipped and every other line is split
    on runs of white space.  If each of them has nine fields,
    [getPidsOfProcess] resolves with their second fields, in the order of
    the lines; otherwise it is rejected with the error that carries the
    index of the first line with another number of fields, and the stdout.
    One of the two is the case. *)
Theorem getPidsOfProcess_with_header name stdout line0 rest :
  ps_outcome name = Fulfilled stdout →
  split re_opt_cr_lf stdout = line0 :: rest →
  js "USER " `prefix_of` line0 →
  (Forall nine_fields rest →
   getPidsOfProcess scheduleExec this name
   = Fulfilled (pid_of <$> filter data_line rest) ∧
   Forall (λ line, ∃ p, split re_spaces line !! 1 = Some p ∧ pid_of line = VStr p)
     (filter data_line rest)) ∧
  (∀ good bad more,
     rest = good ++ bad :: more → Forall nine_fields good → ¬ nine_fields bad →
     (line0 :: rest) !! S (length good) = Some bad ∧
     getPidsOfProcess scheduleExec this name
     = Rejected (Error "Failed to parse ps output line %d: %j"
                   [VNum (Z.of_nat (S (length good))); VStr stdout])) ∧
  (Forall nine_fields rest ∨
   ∃ good bad more,
     rest = good ++ bad :: more ∧ Forall nine_fields good ∧ ¬ nine_fields bad).
Proof.
  intros Hout Hlines Hhead. rewrite (getPidsOfProcess_then _ _ Hout).
  unfold ps_parse. rewrite Hlines.
  rewrite (proj2 (indexOf_0 line0 (js "USER ")) Hhead). cbn [Z.eqb negb forEach].
  destruct (split_header line0 Hhead) as [Hne H0].
  assert (ps_line stdout line0 0 [] = Return []) as ->.
  { unfold ps_line. rewrite bool_decide_eq_false_2 by (by destruct line0).
    by rewrite H0. }
  split; [|split].
  - intros Hall. rewrite forEach_ps_line_ok by (done || lia).
    split; [done|]. apply Forall_forall. intros line Hin.
    apply list_elem_of_filter in Hin as [Hd Hin].
    apply pid_of_nine_fields; [done|]. by eapply Forall_forall in Hall.
  - intros good bad more -> Hgood Hbad. split.
    + simpl. rewrite lookup_app_r by lia. by rewrite Nat.sub_diag.
    + by rewrite forEach_ps_line_bad by (done || lia).
  - apply first_bad_line.
Qed.

End Listing.

Lemma falsy_timeout_is_default_witness :
  command_ exec_timeout emulator [js "devices"] None (VNum 0)
    = exec_timeout tt (js "adb") [js "devices"] None (VNum 60000) ∧
  adb exec_timeout emulator [js "devices"] None (VNum 0)
    = exec_timeout tt (js "adb")
        (js "-s" :: js "emulator-5554" :: [js "devices"]) None (VNum 60000) ∧
  shell exec_timeout emulator [js "devices"] None (VNum 0)
    = exec_timeout tt (js "adb")
        (js "-s" :: js "emulator-5554" :: js "shell" :: [js "devices"]) None
        (VNum 60000) ∧
  (∀ t, js_or t DEFAULT_TIMEOUT ≠ VNum 0).
Proof.
  apply (falsy_timeout_is_default exec_timeout emulator [js "devices"] None (VNum 0)).
  reflexivity.
Defined.

Lemma exists_iff_stdout_is_0_witness :
  exists_ (exec_outcome (Fulfilled (js "0"))) emulator (js "/sdcard")
  = Fulfilled true.
Proof.
  apply (proj2 (proj1 (exists_iff_stdout_is_0
                         (exec_outcome (Fulfilled (js "0"))) emulator (js "/sdcard")))).
  reflexivity.
Defined.

Lemma getPidsOfProcess_without_header_witness :
  getPidsOfProcess (exec_outcome (Fulfilled (js "error: device not found")))
    emulator (js "tcpdump")
  = Rejected (Error "ps command failed, output: %j"
                [VStr (js "error: device not found")]).
Proof.
  apply getPidsOfProcess_without_header; [reflexivity|].
  right. exists (js "error: device not found"), []. split; [reflexivity|].
  intros [k Hk]. discriminate Hk.
Defined.

Lemma getPidsOfProcess_with_header_witness :
  getPidsOfProcess (exec_outcome (Fulfilled ps_tcpdump)) emulator (js "tcpdump")
  = Fulfilled [VStr (js "1234")].
Proof.
  refine (proj1 (proj1 (getPidsOfProcess_with_header
                          (exec_outcome (Fulfilled ps_tcpdump)) emulator
                          (js "tcpdump") ps_tcpdump
                          ps_header [ps_tcpdump_line; []] eq_refl eq_refl _) _)).
  - exists (js "    PID   PPID  VSIZE  RSS     WCHAN    PC         NAME").
    reflexivity.
  - constructor; [intros _; reflexivity|].
    constructor; [intros Hd; destruct (Hd eq_refl)|]. constructor.
Defined.

(** ** Worked examples *)

Example split_lines_ex :
  split re_opt_cr_lf (js "a" ++ [CR; LF] ++ js "b" ++ [LF])
  = [js "a"; js "b"; []].
Proof. reflexivity. Qed.

Example split_lone_cr_ex :
  split re_opt_cr_lf (js "a" ++ [CR] ++ js "b") = [js "a" ++ [CR] ++ js "b"].
Proof. reflexivity. Qed.

Example split_fields_ex :
  split re_spaces (js " ab   c ") = [[]; js "ab"; js "c"; []].
Proof. reflexivity. Qed.

Example split_empty_ex : split re_spaces [] = [[]].
Proof. reflexivity. Qed.

Example indexOf_ex : indexOf (js "xUSER ") (js "USER ") = 1%Z.
Proof. reflexivity. Qed.

Example dos2unix_two_pairs_ex :
  ∃ r h',
    dos2unix zeroed (VBuf (Buffer 0 0 6)) [[x61; x0d; x0a; x62; x0d; x0a]]
      = Ok (VBuf r) h' ∧
    bytes_of h' r = [x61; x0a; x62; x0a] ∧ buf_len r = 4.
Proof. by eexists _, _. Qed.

Example dos2unix_string_ex :
  dos2unix zeroed (VStr (js "acct" ++ [CR; LF] ++ js "cache" ++ [CR; LF])) []
  = Ok (VStr (js "acct" ++ [LF] ++ js "cache" ++ [LF])) [].
Proof. reflexivity. Qed.

Example dos2unix_empty_Buffer_ex :
  dos2unix zeroed (VBuf (Buffer 0 0 0)) [[]] = Ok (VBuf (Buffer 1 0 0)) [[]; []].
Proof. reflexivity. Qed.

Example ps_five_fields_ex :
  ps_parse (ps_header ++ [LF] ++ js "root 1234 1 0 0" ++ [LF])
  = Throws (Error "Failed to parse ps output line %d: %j"
              [VNum 1; VStr (ps_header ++ [LF] ++ js "root 1234 1 0 0" ++ [LF])]).
Proof. reflexivity. Qed.

Example ps_blank_line_ex :
  ps_parse (ps_header ++ [LF; LF] ++ ps_tcpdump_line) = Return [VStr (js "1234")].
Proof. reflexivity. Qed.

(** * Further properties *)

(** ** More on pairs of carriage return and line feed *)

Section NormalizeMore.

Context {A : Type} `{EqDecision A} (cr lf : A).
Hypothesis cr_lf : cr ≠ lf.

Local Abbreviation norm := (crlf_to_lf cr lf).

Lemma crlf_to_lf_count l : length (norm l) + count_crlf cr lf l = length l.
Proof.
  induction l as [|t IH|x t Hn IH] using (crlf_ind cr lf); [done|..].
  - rewrite crlf_to_lf_pair by done. cbn [count_crlf length head].
    rewrite bool_decide_eq_true_2 by done.
    rewrite (bool_decide_eq_false_2 (lf = cr ∧ _)) by naive_solver. lia.
  - rewrite crlf_to_lf_other by done. cbn [count_crlf length].
    rewrite bool_decide_eq_false_2 by done. lia.
Qed.

Lemma crlf_to_lf_sublist l : norm l `sublist_of` l.
Proof.
  induction l as [|t IH|x t Hn IH] using (crlf_ind cr lf); [done|..].
  - rewrite crlf_to_lf_pair by done. by apply sublist_cons, sublist_skip.
  - rewrite crlf_to_lf_other by done. by apply sublist_skip.
Qed.

Lemma crlf_to_lf_filter l :
  filter (λ x, x ≠ cr) (norm l) = filter (λ x, x ≠ cr) l.
Proof.
  induction l as [|t IH|x t Hn IH] using (crlf_ind cr lf); [done|..].
  - rewrite crlf_to_lf_pair by done.
    rewrite (filter_cons_False _ cr) by naive_solver.
    rewrite !(filter_cons_True _ lf) by naive_solver. by rewrite IH.
  - rewrite crlf_to_lf_other by done.
    destruct (decide (x = cr)) as [->|Hx].
    + rewrite !(filter_cons_False _ cr) by naive_solver. done.
    + rewrite !(filter_cons_True _ x) by done. by rewrite IH.
Qed.

End NormalizeMore.

(** Normalising commutes with a change of alphabet that keeps the carriage
    return and the line feed apart from everything else. *)
Lemma crlf_to_lf_fmap {A B} `{EqDecision A, EqDecision B} (f : A → B)
    (cr lf : A) (l : list A) :
  Inj (=) (=) f → cr ≠ lf →
  f <$> crlf_to_lf cr lf l = crlf_to_lf (f cr) (f lf) (f <$> l).
Proof.
  intros Hf Hne.
  induction l as [|t IH|x t Hn IH] using (crlf_ind cr lf); [done|..].
  - cbn [fmap list_fmap].
    rewrite !crlf_to_lf_pair by (done || by intros ?%Hf). cbn [fmap list_fmap].
    by f_equal.
  - cbn [fmap list_fmap].
    rewrite !crlf_to_lf_other; [cbn [fmap list_fmap]; by f_equal| |done].
    intros [?%Hf Hh]. apply Hn. split; [done|].
    destruct t as [|y t]; [done|]. simpl in Hh. by injection Hh as ->%Hf.
Qed.

#[global] Instance unit_of_byte_inj : Inj (=) (=) unit_of_byte.
Proof.
  intros x y Hxy. unfold unit_of_byte in Hxy.
  pose proof (Byte.of_to_N x) as Hx. rewrite Hxy, Byte.of_to_N in Hx.
  by injection Hx.
Qed.

(** ** Splitting on white space *)

Lemma split_go_sep c s cur :
  is_space c = true →
  split_go re_spaces (c :: s) 0 cur = cur :: split_go re_spaces s (space_run s) [].
Proof. intros Hc. cbn [split_go]. unfold re_spaces. simpl. by rewrite Hc. Qed.

Lemma split_go_skip c s cur :
  is_space c = true →
  split_go re_spaces (c :: s) (space_run (c :: s)) cur
  = split_go re_spaces s (space_run s) cur.
Proof. intros Hc. simpl. by rewrite Hc. Qed.

Lemma space_run_space c s :
  is_space c = true → space_run (c :: s) = S (space_run s).
Proof. intros Hc. simpl. by rewrite Hc. Qed.

Lemma space_run_char c s : is_space c = false → space_run (c :: s) = 0.
Proof. intros Hc. simpl. by rewrite Hc. Qed.

Lemma split_go_char c s cur :
  is_space c = false →
  split_go re_spaces (c :: s) 0 cur = split_go re_spaces s 0 (cur ++ [c]).
Proof. intros Hc. cbn [split_go]. unfold re_spaces. simpl. by rewrite Hc. Qed.

Lemma split_go_no_space s : ∀ k cur,
  k = space_run s ∨ k = 0 → no_space cur →
  Forall no_space (split_go re_spaces s k cur).
Proof.
  induction s as [|c s IH]; intros k cur Hk Hcur; [by repeat constructor|].
  destruct (is_space c) eqn:Hc.
  - destruct Hk as [->| ->].
    + rewrite split_go_skip by done. apply IH; auto.
    + rewrite split_go_sep by done. constructor; [done|].
      apply IH; [auto|constructor].
  - rewrite space_run_char in Hk by done.
    assert (k = 0) as -> by (by destruct Hk).
    rewrite split_go_char by done. apply IH; [auto|].
    apply Forall_app. split; [done|]. by repeat constructor.
Qed.

(** Only the first and the last field of a line can be empty. *)
Lemma split_go_inner s : ∀ k cur i f,
  k = space_run s ∨ (k = 0 ∧ cur ≠ []) →
  split_go re_spaces s k cur !! i = Some f →
  S i < length (split_go re_spaces s k cur) →
  f ≠ [].
Proof.
  induction s as [|c s IH]; intros k cur i f Hk Hf Hi; [simpl in Hi; lia|].
  destruct (is_space c) eqn:Hc.
  - destruct Hk as [->|[-> Hcur]].
    + rewrite split_go_skip in Hf, Hi by done.
      apply (IH (space_run s) cur i f); [by left|done..].
    + rewrite split_go_sep in Hf, Hi by done. destruct i as [|i].
      * by injection Hf as <-.
      * simpl in Hf, Hi. apply (IH (space_run s) [] i f); [by left|done|lia].
  - rewrite space_run_char in Hk by done.
    assert (k = 0) as -> by (by destruct Hk as [?|[? _]]).
    rewrite split_go_char in Hf, Hi by done.
    apply (IH 0 (cur ++ [c]) i f); [right; split; [done|by destruct cur]|done..].
Qed.

Lemma split_inner s i f :
  split re_spaces s !! i = Some f →
  0 < i → S i < length (split re_spaces s) →
  f ≠ [].
Proof.
  unfold split. destruct s as [|c s]; [simpl; lia|].
  destruct (is_space c) eqn:Hc.
  - rewrite split_go_sep by done. destruct i as [|i]; [lia|]. simpl.
    intros Hf _ Hi.
    apply (split_go_inner s (space_run s) [] i f); [by left|done|lia].
  - rewrite split_go_char by done. intros Hf _ Hi.
    apply (split_go_inner s 0 ([] ++ [c]) i f); [by right|done..].
Qed.

Lemma split_no_space s : Forall no_space (split re_spaces s).
Proof. apply split_go_no_space; [by right|constructor]. Qed.

Lemma space_run_snoc s c x :
  last s = Some x → is_space x = false → space_run (s ++ [c]) = space_run s.
Proof.
  induction s as [|y s IH]; intros Hl Hx; [done|]. simpl.
  destruct (is_space y) eqn:Hy; [|done]. f_equal.
  destruct s as [|z s]; [simpl in Hl; congruence|]. by apply IH.
Qed.

(** White space after the last field adds an empty field. *)
Lemma split_go_trailing c s x : ∀ k cur,
  is_space c = true → last s = Some x → is_space x = false →
  k = space_run s ∨ k = 0 →
  split_go re_spaces (s ++ [c]) k cur = split_go re_spaces s k cur ++ [[]].
Proof.
  induction s as [|y s IH]; intros k cur Hc Hl Hx Hk; [done|].
  destruct s as [|z s].
  - injection Hl as ->. rewrite space_run_char in Hk by done.
    assert (k = 0) as -> by (by destruct Hk).
    cbn [app].
    rewrite (split_go_char x [c]), (split_go_char x []), split_go_sep by done.
    reflexivity.
  - assert (Hl' : last (z :: s) = Some x) by done.
    assert (Hr : space_run ((z :: s) ++ [c]) = space_run (z :: s))
      by (by apply (space_run_snoc _ c x)).
    change ((y :: z :: s) ++ [c]) with (y :: ((z :: s) ++ [c])).
    destruct (is_space y) eqn:Hy.
    + destruct Hk as [->| ->].
      * rewrite (split_go_skip y (z :: s)) by done.
        replace (space_run (y :: z :: s))
          with (space_run (y :: ((z :: s) ++ [c])))
          by (rewrite !space_run_space by done; by rewrite Hr).
        rewrite (split_go_skip y ((z :: s) ++ [c])) by done.
        rewrite Hr. apply IH; auto.
      * rewrite (split_go_sep y (z :: s)), (split_go_sep y ((z :: s) ++ [c]))
          by done.
        rewrite Hr. cbn [app]. f_equal. apply IH; auto.
    + rewrite space_run_char in Hk by done.
      assert (k = 0) as -> by (by destruct Hk).
      rewrite (split_go_char y (z :: s)), (split_go_char y ((z :: s) ++ [c]))
        by done.
      apply IH; auto.
Qed.

Lemma split_trailing c s x :
  is_space c = true → last s = Some x → is_space x = false →
  length (split re_spaces (s ++ [c])) = S (length (split re_spaces s)).
Proof.
  intros Hc Hl Hx. unfold split.
  rewrite (split_go_trailing c s x) by auto. rewrite length_app. simpl. lia.
Qed.

(** ** Splitting into lines *)

(** The lines of a text and of its normalisation are the same, unless a
    carriage return stands before a pair. *)
Lemma split_lines_crlf_to_lf s :
  has_cr_crlf CR LF s = false →
  split re_opt_cr_lf (crlf_to_lf CR LF s) = split re_opt_cr_lf s.
Proof.
  unfold split. generalize (@nil char16) as cur.
  induction s as [|t IH|x t Hn IH] using (crlf_ind CR LF); intros cur H3;
    [done|..].
  - rewrite crlf_to_lf_pair by done.
    assert (has_cr_crlf CR LF t = false) as Ht.
    { cbn [has_cr_crlf head tail] in H3.
      by apply orb_false_iff in H3 as [_ [_ ?]%orb_false_iff]. }
    simpl. by rewrite IH.
  - rewrite crlf_to_lf_other by done.
    cbn [has_cr_crlf] in H3. apply orb_false_iff in H3 as [Hx Ht].
    apply bool_decide_eq_false in Hx.
    cbn [split_go].
    assert (re_opt_cr_lf (x :: crlf_to_lf CR LF t) = re_opt_cr_lf (x :: t)) as ->.
    { unfold re_opt_cr_lf. rewrite crlf_to_lf_head by done.
      rewrite (bool_decide_eq_false_2 (x = CR ∧ head t = Some LF)) by done.
      rewrite bool_decide_eq_false_2; [done|].
      intros [-> Hh]. case_bool_decide; naive_solver. }
    destruct (re_opt_cr_lf (x :: t)) as [[|k]|] eqn:Hre; try by rewrite IH.
    unfold re_opt_cr_lf in Hre. rewrite bool_decide_eq_false_2 in Hre by done.
    case_bool_decide; [|done]. injection Hre as <-. by rewrite IH.
Qed.

(** Normalising two chunks one by one gives the normalised whole exactly
    when the cut does not fall inside a pair. *)
Lemma crlf_to_lf_app_iff {A} `{EqDecision A} (cr lf : A) (a b : list A) :
  cr ≠ lf →
  crlf_to_lf cr lf (a ++ b) = crlf_to_lf cr lf a ++ crlf_to_lf cr lf b ↔
  ¬ (last a = Some cr ∧ head b = Some lf).
Proof.
  intros Hne. split; [|by apply crlf_to_lf_app].
  intros Heq [[a0 ->]%last_Some Hb]. destruct b as [|y b0]; [done|].
  injection Hb as ->. apply (f_equal length) in Heq. revert Heq.
  rewrite <-(app_assoc a0 [cr] (lf :: b0)). cbn [app].
  rewrite (crlf_to_lf_app cr lf a0 (cr :: lf :: b0)) by (simpl; naive_solver).
  rewrite crlf_to_lf_pair.
  rewrite (crlf_to_lf_snoc cr lf a0 cr) by naive_solver.
  rewrite (crlf_to_lf_other cr lf lf b0) by naive_solver.
  rewrite !length_app. simpl. lia.
Qed.

(** ** The parser of the process listing, once more *)

(** The stdout only shows in the errors. *)
Lemma forEach_ps_line_stdout s1 s2 ls : ∀ i pids,
  match forEach (ps_line s1) ls i pids, forEach (ps_line s2) ls i pids with
  | Return a, Return b => a = b
  | Throws _, Throws _ => True
  | _, _ => False
  end.
Proof.
  induction ls as [|line ls IH]; intros i pids; [done|]. simpl.
  unfold ps_line. destruct (bool_decide (length line = 0)); [apply IH|].
  destruct (_ && _); [apply IH|]. destruct (negb _); [done|apply IH].
Qed.

Lemma ps_parse_same_lines s1 s2 pids :
  split re_opt_cr_lf s1 = split re_opt_cr_lf s2 →
  ps_parse s1 = Return pids → ps_parse s2 = Return pids.
Proof.
  unfold ps_parse. intros ->.
  destruct (split re_opt_cr_lf s2) as [|line0 rest]; [done|].
  destruct (negb _); [done|].
  pose proof (forEach_ps_line_stdout s1 s2 (line0 :: rest) 0 []) as H12.
  destruct (forEach (ps_line s1) _ _ _), (forEach (ps_line s2) _ _ _);
    naive_solver.
Qed.

Lemma getPidsOfProcess_data {App Options}
    (scheduleExec :
       App → jsstring → list jsstring → option Options → value → promise jsstring)
    (this : Adb App) name stdout line0 rest :
  scheduleExec (app_ this) (adbCommand this)
    [js "-s"; serial this; js "shell"; js "ps"; name] None (VNum 60000)
  = Fulfilled stdout →
  split re_opt_cr_lf stdout = line0 :: rest →
  js "USER " `prefix_of` line0 →
  getPidsOfProcess scheduleExec this name =
  match forEach (ps_line stdout) rest 1 [] with
  | Return pids => Fulfilled pids
  | Throws e => Rejected e
  end.
Proof.
  intros Hout Hlines Hhead. rewrite (getPidsOfProcess_then _ _ _ _ Hout).
  unfold ps_parse. rewrite Hlines.
  rewrite (proj2 (indexOf_0 line0 (js "USER ")) Hhead). cbn [Z.eqb negb forEach].
  destruct (split_header line0 Hhead) as [Hne H0].
  assert (ps_line stdout line0 0 [] = Return []) as ->; [|done].
  unfold ps_line. rewrite bool_decide_eq_false_2 by (by destruct line0).
  by rewrite H0.
Qed.

(** What a fulfilled [getPidsOfProcess] says of the stdout. *)
Lemma ps_parse_Return stdout pids :
  ps_parse stdout = Return pids →
  ∃ line0 rest,
    split re_opt_cr_lf stdout = line0 :: rest ∧
    js "USER " `prefix_of` line0 ∧
    Forall nine_fields rest ∧
    pids = pid_of <$> filter data_line rest.
Proof.
  unfold ps_parse. destruct (split re_opt_cr_lf stdout) as [|line0 rest]; [done|].
  destruct (Z.eqb_spec (indexOf line0 (js "USER ")) 0) as [H0|H0]; [|done].
  apply indexOf_0 in H0. cbn [negb forEach].
  destruct (split_header line0 H0) as [Hne Hu].
  assert (ps_line stdout line0 0 [] = Return []) as ->.
  { unfold ps_line. rewrite bool_decide_eq_false_2 by (by destruct line0).
    by rewrite Hu. }
  intros Hrun. exists line0, rest. split; [done|]. split; [done|].
  destruct (first_bad_line rest) as [Hall|(good & bad & more & -> & Hg & Hb)].
  - rewrite forEach_ps_line_ok in Hrun by (done || lia).
    split; [done|]. by injection Hrun as <-.
  - by rewrite forEach_ps_line_bad in Hrun by (done || lia).
Qed.

(** * Further results *)

(** X1. The command of a new [Adb] is never empty: it is the argument when
    that is a non-empty string, else the environment's [ANDROID_ADB] when
    that is a non-empty string, else ["adb"]; an empty string counts as
    absent in both places.  The scheduler and the serial are stored as
    given. *)
Theorem new_Adb_adbCommand {App : Type} (app : App) dev cmd env :
  adbCommand (new_Adb app dev cmd env) ≠ [] ∧
  (∀ s, cmd = Some s → s ≠ [] → adbCommand (new_Adb app dev cmd env) = s) ∧
  (∀ s, cmd = None ∨ cmd = Some [] → env = Some s → s ≠ [] →
        adbCommand (new_Adb app dev cmd env) = s) ∧
  (cmd = None ∨ cmd = Some [] → env = None ∨ env = Some [] →
   adbCommand (new_Adb app dev cmd env) = js "adb") ∧
  app_ (new_Adb app dev cmd env) = app ∧
  serial (new_Adb app dev cmd env) = dev.
Proof.
  unfold new_Adb, or_opt, or_string. simpl.
  destruct cmd as [[|c cmd]|], env as [[|e env]|]; simpl;
    repeat split; try done; naive_solver.
Qed.

(** X2. On a string, [dos2unix] leaves the heap alone and returns the
    string with every pair CR LF replaced by LF: pieces without a pair that
    come with pairs between them are returned with single LF between them,
    the length drops by the number of pairs, and nothing but CR code units
    is taken out. *)
Theorem dos2unix_string junk h s :
  ∃ s',
    dos2unix junk (VStr s) h = Ok (VStr s') h ∧
    (∀ segs,
       Forall (λ seg, has_crlf CR LF seg = false) segs →
       s = joined [CR; LF] segs → s' = joined [LF] segs) ∧
    length s' + count_crlf CR LF s = length s ∧
    s' `sublist_of` s ∧
    filter (λ c, c ≠ CR) s' = filter (λ c, c ≠ CR) s.
Proof.
  exists (crlf_to_lf CR LF s). split; [apply dos2unix_VStr|].
  split; [intros segs Hsegs ->; by apply crlf_to_lf_joined|].
  split; [by apply crlf_to_lf_count|].
  split; [apply crlf_to_lf_sublist|by apply crlf_to_lf_filter].
Qed.

(** X3. The two branches of [dos2unix] agree: the bytes of the Buffer
    returned for a Buffer are, as code units, the string returned for the
    string of the input's bytes. *)
Theorem dos2unix_Buffer_as_string junk h b :
  buffer_ok h b →
  ∃ r h' s',
    dos2unix junk (VBuf b) h = Ok (VBuf r) h' ∧
    dos2unix junk (VStr (unit_of_byte <$> bytes_of h b)) h = Ok (VStr s') h ∧
    unit_of_byte <$> bytes_of h' r = s'.
Proof.
  intros Hok. destruct (dos2unix_VBuf junk h b Hok) as (r & s & Hrun & _ & _ & Hb).
  eexists r, (h ++ [s]), _. split; [done|]. split; [apply dos2unix_VStr|].
  rewrite Hb.
  rewrite (crlf_to_lf_fmap unit_of_byte x0d x0a) by (apply _ || done).
  reflexivity.
Qed.

Lemma dos2unix_Buffer_as_string_witness :
  ∃ r h' s',
    dos2unix zeroed (VBuf (Buffer 0 0 4)) [[x61; x0d; x0a; x62]] = Ok (VBuf r) h' ∧
    dos2unix zeroed
      (VStr (unit_of_byte <$> bytes_of [[x61; x0d; x0a; x62]] (Buffer 0 0 4)))
      [[x61; x0d; x0a; x62]]
    = Ok (VStr s') [[x61; x0d; x0a; x62]] ∧
    unit_of_byte <$> bytes_of h' r = s'.
Proof.
  apply (dos2unix_Buffer_as_string zeroed [[x61; x0d; x0a; x62]] (Buffer 0 0 4)).
  unfold buffer_ok. simpl. lia.
Defined.

(** X4. The Buffer that [dos2unix] returns is shorter than its input by
    the number of pairs 0x0D 0x0A of the input. *)
Theorem dos2unix_Buffer_exact_length junk h b :
  buffer_ok h b →
  ∃ r h',
    dos2unix junk (VBuf b) h = Ok (VBuf r) h' ∧
    buf_len r + count_crlf x0d x0a (bytes_of h b) = buf_len b.
Proof.
  intros Hok.
  destruct (dos2unix_VBuf junk h b Hok) as (r & s & Hrun & _ & Hokr & Hb).
  exists r, (h ++ [s]). split; [done|].
  rewrite <-(bytes_of_length _ _ Hokr), <-(bytes_of_length _ _ Hok), Hb.
  by apply crlf_to_lf_count.
Qed.

Lemma dos2unix_Buffer_exact_length_witness :
  ∃ r h',
    dos2unix zeroed (VBuf (Buffer 0 0 6)) [[x61; x0d; x0a; x62; x0d; x0a]]
      = Ok (VBuf r) h' ∧
    buf_len r
      + count_crlf x0d x0a
          (bytes_of [[x61; x0d; x0a; x62; x0d; x0a]] (Buffer 0 0 6))
    = 6.
Proof.
  apply (dos2unix_Buffer_exact_length zeroed
           [[x61; x0d; x0a; x62; x0d; x0a]] (Buffer 0 0 6)).
  unfold buffer_ok. simpl. lia.
Defined.

(** X5. [dos2unix] on a Buffer takes out bytes 0x0D and does nothing else:
    what it returns is the input with some bytes left out, and without
    their bytes 0x0D the two are the same. *)
Theorem dos2unix_Buffer_removes_only_cr junk h b :
  buffer_ok h b →
  ∃ r h',
    dos2unix junk (VBuf b) h = Ok (VBuf r) h' ∧
    bytes_of h' r `sublist_of` bytes_of h b ∧
    filter (λ x, x ≠ x0d) (bytes_of h' r) = filter (λ x, x ≠ x0d) (bytes_of h b).
Proof.
  intros Hok. destruct (dos2unix_VBuf junk h b Hok) as (r & s & Hrun & _ & _ & Hb).
  exists r, (h ++ [s]). split; [done|]. rewrite Hb.
  split; [apply crlf_to_lf_sublist|by apply crlf_to_lf_filter].
Qed.

Lemma dos2unix_Buffer_removes_only_cr_witness :
  ∃ r h',
    dos2unix zeroed (VBuf (Buffer 0 0 4)) [[x0d; x0d; x0a; x0d]] = Ok (VBuf r) h' ∧
    bytes_of h' r `sublist_of` bytes_of [[x0d; x0d; x0a; x0d]] (Buffer 0 0 4) ∧
    filter (λ x, x ≠ x0d) (bytes_of h' r)
    = filter (λ x, x ≠ x0d) (bytes_of [[x0d; x0d; x0a; x0d]] (Buffer 0 0 4)).
Proof.
  apply (dos2unix_Buffer_removes_only_cr zeroed [[x0d; x0d; x0a; x0d]] (Buffer 0 0 4)).
  unfold buffer_ok. simpl. lia.
Defined.

(** X6. What the memory of the new Buffer held before [dos2unix] wrote to it
    does not show: whatever the allocator hands out, the Buffers returned
    are as long and show the same bytes. *)
Theorem dos2unix_Buffer_hides_junk junk1 junk2 h b :
  buffer_ok h b →
  ∃ r1 h1 r2 h2,
    dos2unix junk1 (VBuf b) h = Ok (VBuf r1) h1 ∧
    dos2unix junk2 (VBuf b) h = Ok (VBuf r2) h2 ∧
    buf_len r1 = buf_len r2 ∧
    bytes_of h1 r1 = bytes_of h2 r2.
Proof.
  intros Hok.
  destruct (dos2unix_VBuf junk1 h b Hok) as (r1 & s1 & Hrun1 & _ & Hok1 & Hb1).
  destruct (dos2unix_VBuf junk2 h b Hok) as (r2 & s2 & Hrun2 & _ & Hok2 & Hb2).
  exists r1, (h ++ [s1]), r2, (h ++ [s2]). split; [done|]. split; [done|].
  rewrite <-(bytes_of_length _ _ Hok1), <-(bytes_of_length _ _ Hok2).
  by rewrite Hb1, Hb2.
Qed.

Lemma dos2unix_Buffer_hides_junk_witness :
  ∃ r1 h1 r2 h2,
    dos2unix zeroed (VBuf (Buffer 0 0 3)) [[x0d; x0a; x62]] = Ok (VBuf r1) h1 ∧
    dos2unix (λ _ _, xff) (VBuf (Buffer 0 0 3)) [[x0d; x0a; x62]] = Ok (VBuf r2) h2 ∧
    buf_len r1 = buf_len r2 ∧
    bytes_of h1 r1 = bytes_of h2 r2.
Proof.
  apply (dos2unix_Buffer_hides_junk zeroed (λ _ _, xff) [[x0d; x0a; x62]]
           (Buffer 0 0 3)).
  unfold buffer_ok. simpl. lia.
Defined.

(** X7. What [dos2unix] returns for a Buffer still holds a pair 0x0D 0x0A
    exactly when the input holds a 0x0D that is followed by such a pair. *)
Theorem dos2unix_Buffer_leftover_pairs junk h b :
  buffer_ok h b →
  ∃ r h',
    dos2unix junk (VBuf b) h = Ok (VBuf r) h' ∧
    ((∃ i, bytes_of h' r !! i = Some x0d ∧ bytes_of h' r !! S i = Some x0a) ↔
     (∃ i, bytes_of h b !! i = Some x0d ∧ bytes_of h b !! S i = Some x0d ∧
           bytes_of h b !! S (S i) = Some x0a)).
Proof.
  intros Hok. destruct (dos2unix_VBuf junk h b Hok) as (r & s & Hrun & _ & _ & Hb).
  exists r, (h ++ [s]). split; [done|].
  rewrite Hb, <-has_crlf_lookup, <-has_cr_crlf_lookup.
  by rewrite has_crlf_crlf_to_lf.
Qed.

Lemma dos2unix_Buffer_leftover_pairs_witness :
  ∃ r h',
    dos2unix zeroed (VBuf (Buffer 0 0 4)) [[x61; x0d; x0d; x0a]] = Ok (VBuf r) h' ∧
    ((∃ i, bytes_of h' r !! i = Some x0d ∧ bytes_of h' r !! S i = Some x0a) ↔
     (∃ i, bytes_of [[x61; x0d; x0d; x0a]] (Buffer 0 0 4) !! i = Some x0d ∧
           bytes_of [[x61; x0d; x0d; x0a]] (Buffer 0 0 4) !! S i = Some x0d ∧
           bytes_of [[x61; x0d; x0d; x0a]] (Buffer 0 0 4) !! S (S i) = Some x0a)).
Proof.
  apply (dos2unix_Buffer_leftover_pairs zeroed [[x61; x0d; x0d; x0a]] (Buffer 0 0 4)).
  unfold buffer_ok. simpl. lia.
Defined.

(** X8. Normalising a text in two chunks: the results of [dos2unix] on the
    chunks, put together, are its result on the whole exactly when the cut
    does not fall between the CR and the LF of a pair.  The same holds for
    the bytes of Buffers. *)
Theorem dos2unix_chunks junk h :
  (∀ s1 s2, ∃ r1 r2 r,
     dos2unix junk (VStr s1) h = Ok (VStr r1) h ∧
     dos2unix junk (VStr s2) h = Ok (VStr r2) h ∧
     dos2unix junk (VStr (s1 ++ s2)) h = Ok (VStr r) h ∧
     (r = r1 ++ r2 ↔ ¬ (last s1 = Some CR ∧ head s2 = Some LF))) ∧
  (∀ b1 b2 b,
     buffer_ok h b1 → buffer_ok h b2 → buffer_ok h b →
     bytes_of h b = bytes_of h b1 ++ bytes_of h b2 →
     ∃ r1 h1 r2 h2 r h',
       dos2unix junk (VBuf b1) h = Ok (VBuf r1) h1 ∧
       dos2unix junk (VBuf b2) h = Ok (VBuf r2) h2 ∧
       dos2unix junk (VBuf b) h = Ok (VBuf r) h' ∧
       (bytes_of h' r = bytes_of h1 r1 ++ bytes_of h2 r2 ↔
        ¬ (last (bytes_of h b1) = Some x0d ∧ head (bytes_of h b2) = Some x0a))).
Proof.
  split.
  - intros s1 s2. eexists _, _, _. rewrite !dos2unix_VStr.
    split; [done|]. split; [done|]. split; [done|].
    by apply crlf_to_lf_app_iff.
  - intros b1 b2 b Hok1 Hok2 Hok Hcat.
    destruct (dos2unix_VBuf junk h b1 Hok1) as (r1 & t1 & Hrun1 & _ & _ & Hb1).
    destruct (dos2unix_VBuf junk h b2 Hok2) as (r2 & t2 & Hrun2 & _ & _ & Hb2).
    destruct (dos2unix_VBuf junk h b Hok) as (r & t & Hrun & _ & _ & Hb).
    eexists _, _, _, _, _, _. split; [done|]. split; [done|]. split; [done|].
    rewrite Hb, Hb1, Hb2, Hcat. by apply crlf_to_lf_app_iff.
Qed.

Lemma dos2unix_chunks_witness :
  ∃ r1 h1 r2 h2 r h',
    dos2unix zeroed (VBuf (Buffer 0 0 2)) [[x61; x0d; x0a; x62]] = Ok (VBuf r1) h1 ∧
    dos2unix zeroed (VBuf (Buffer 0 2 2)) [[x61; x0d; x0a; x62]] = Ok (VBuf r2) h2 ∧
    dos2unix zeroed (VBuf (Buffer 0 0 4)) [[x61; x0d; x0a; x62]] = Ok (VBuf r) h' ∧
    (bytes_of h' r = bytes_of h1 r1 ++ bytes_of h2 r2 ↔
     ¬ (last (bytes_of [[x61; x0d; x0a; x62]] (Buffer 0 0 2)) = Some x0d ∧
        head (bytes_of [[x61; x0d; x0a; x62]] (Buffer 0 2 2)) = Some x0a)).
Proof.
  apply (proj2 (dos2unix_chunks zeroed [[x61; x0d; x0a; x62]])
           (Buffer 0 0 2) (Buffer 0 2 2) (Buffer 0 0 4));
    try (unfold buffer_ok; simpl; lia).
  reflexivity.
Defined.

Section ListingMore.

Context {App Options : Type}.
Context (scheduleExec :
  App → jsstring → list jsstring → option Options → value → promise jsstring).
Context (this : Adb App).

Local Abbreviation ps_outcome name :=
  (scheduleExec (app_ this) (adbCommand this)
     [js "-s"; serial this; js "shell"; js "ps"; name] None (VNum 60000)).

Local Abbreviation ls_outcome path :=
  (scheduleExec (app_ this) (adbCommand this)
     [js "-s"; serial this; js "shell";
      js "ls"; path; js ">"; js "/dev/null"; js "2>&1"; js ";"; js "echo"; js "$?"]
     None (VNum 60000)).

(** X9. A rejection of the command is passed on as it is: by
    [getPidsOfProcess], which then parses nothing, and by [exists], which
    is rejected in no other case. *)
Theorem rejection_passes_through e :
  (∀ name, ps_outcome name = Rejected e →
           getPidsOfProcess scheduleExec this name = Rejected e) ∧
  (∀ path, exists_ scheduleExec this path = Rejected e ↔
           ls_outcome path = Rejected e).
Proof.
  split.
  - intros name Hout. unfold getPidsOfProcess. rewrite shell_dispatch.
    unfold js_or, DEFAULT_TIMEOUT. simpl. by rewrite Hout.
  - intros path. unfold exists_. rewrite shell_dispatch.
    unfold js_or, DEFAULT_TIMEOUT. simpl.
    destruct (scheduleExec _ _ _ _ _) as [stdout|e']; simpl; [done|].
    split; by intros [= ->].
Qed.

(** X10. A data line with nine fields that ends in a field stops being
    accepted when one white-space code unit follows it (a stray carriage
    return, as in a line that ends in CR CR LF): the split then yields a
    tenth, empty field and [getPidsOfProcess] is rejected at that line. *)
Theorem getPidsOfProcess_trailing_space name stdout line0 good line c x more :
  ps_outcome name = Fulfilled stdout →
  split re_opt_cr_lf stdout = line0 :: good ++ (line ++ [c]) :: more →
  js "USER " `prefix_of` line0 →
  Forall nine_fields good →
  length (split re_spaces line) = 9 →
  last line = Some x → is_space x = false → is_space c = true →
  getPidsOfProcess scheduleExec this name
  = Rejected (Error "Failed to parse ps output line %d: %j"
                [VNum (Z.of_nat (S (length good))); VStr stdout]).
Proof.
  intros Hout Hlines Hhead Hgood H9 Hl Hx Hc.
  rewrite (getPidsOfProcess_data _ _ _ _ _ _ Hout Hlines Hhead).
  rewrite forEach_ps_line_bad; [done|lia|done|].
  intros Hnine. specialize (Hnine ltac:(by destruct line)).
  rewrite (split_trailing c line x) in Hnine by done. lia.
Qed.

(** X11. The process identifiers of a fulfilled [getPidsOfProcess] are
    strings that are not empty and hold no white space, and there are fewer
    of them than lines in the stdout. *)
Theorem getPidsOfProcess_pids name stdout pids :
  ps_outcome name = Fulfilled stdout →
  getPidsOfProcess scheduleExec this name = Fulfilled pids →
  Forall (λ v, ∃ p, v = VStr p ∧ p ≠ [] ∧ no_space p) pids ∧
  length pids < length (split re_opt_cr_lf stdout).
Proof.
  intros Hout. rewrite (getPidsOfProcess_then _ _ _ _ Hout).
  destruct (ps_parse stdout) as [pids'|e] eqn:Hparse; [|done].
  intros [= ->].
  apply ps_parse_Return in Hparse as (line0 & rest & -> & _ & Hall & ->).
  split.
  - apply Forall_fmap, Forall_forall. intros line Hin.
    apply list_elem_of_filter in Hin as [Hd Hin].
    assert (nine_fields line) as H9 by (by eapply Forall_forall in Hall).
    destruct (pid_of_nine_fields line Hd H9) as (p & Hp & Hpid).
    simpl. exists p. split; [done|]. specialize (H9 Hd). split.
    + apply (split_inner line 1 p); [done|lia|lia].
    + pose proof (split_no_space line) as Hns.
      eapply Forall_forall in Hns; [done|]. by eapply list_elem_of_lookup_2.
  - rewrite length_fmap. simpl.
    pose proof (length_filter data_line rest). lia.
Qed.

(** X12. When the stdout of [ps] is the header line alone, with or without
    empty lines after it, no process has the name and [getPidsOfProcess]
    resolves with the empty array. *)
Theorem getPidsOfProcess_no_process name stdout line0 rest :
  ps_outcome name = Fulfilled stdout →
  split re_opt_cr_lf stdout = line0 :: rest →
  js "USER " `prefix_of` line0 →
  Forall (λ line, line = []) rest →
  getPidsOfProcess scheduleExec this name = Fulfilled [].
Proof.
  intros Hout Hlines Hhead Hrest.
  rewrite (getPidsOfProcess_data _ _ _ _ _ _ Hout Hlines Hhead).
  rewrite forEach_ps_line_ok; [|lia|].
  - replace (filter data_line rest) with (@nil jsstring); [done|].
    symmetry. clear Hlines. induction Hrest as [|line rest -> _ IH]; [done|].
    by rewrite filter_cons_False by (by intros []).
  - eapply Forall_impl; [done|]. by intros line -> [].
Qed.

End ListingMore.

(** X13. The line ends do not matter to [getPidsOfProcess] as long as no
    carriage return stands before a pair CR LF: on the stdout and on what
    [dos2unix] makes of it, it resolves with the same process
    identifiers. *)
Theorem getPidsOfProcess_line_ends {App Options : Type}
    (exec1 exec2 :
       App → jsstring → list jsstring → option Options → value → promise jsstring)
    (this : Adb App) junk h name stdout stdout' pids :
  has_cr_crlf CR LF stdout = false →
  dos2unix junk (VStr stdout) h = Ok (VStr stdout') h →
  exec1 (app_ this) (adbCommand this)
    [js "-s"; serial this; js "shell"; js "ps"; name] None (VNum 60000)
  = Fulfilled stdout →
  exec2 (app_ this) (adbCommand this)
    [js "-s"; serial this; js "shell"; js "ps"; name] None (VNum 60000)
  = Fulfilled stdout' →
  getPidsOfProcess exec1 this name = Fulfilled pids ↔
  getPidsOfProcess exec2 this name = Fulfilled pids.
Proof.
  intros H3 Hdos Hout1 Hout2. rewrite dos2unix_VStr in Hdos.
  injection Hdos as <-.
  rewrite (getPidsOfProcess_then _ _ _ _ Hout1).
  rewrite (getPidsOfProcess_then _ _ _ _ Hout2).
  pose proof (split_lines_crlf_to_lf stdout H3) as Hlines.
  split.
  - destruct (ps_parse stdout) as [p|e] eqn:Hp; [|done]. intros [= ->].
    by rewrite (ps_parse_same_lines _ _ _ (eq_sym Hlines) Hp).
  - destruct (ps_parse (crlf_to_lf CR LF stdout)) as [p|e] eqn:Hp; [|done].
    intros [= ->]. by rewrite (ps_parse_same_lines _ _ _ Hlines Hp).
Qed.

Lemma getPidsOfProcess_trailing_space_witness :
  getPidsOfProcess
    (exec_outcome
       (Fulfilled (ps_header ++ [CR; CR; LF] ++ ps_tcpdump_line ++ [CR; CR; LF])))
    emulator (js "tcpdump")
  = Rejected (Error "Failed to parse ps output line %d: %j"
                [VNum 1;
                 VStr (ps_header ++ [CR; CR; LF] ++ ps_tcpdump_line ++ [CR; CR; LF])]).
Proof.
  apply (getPidsOfProcess_trailing_space
           (exec_outcome
              (Fulfilled (ps_header ++ [CR; CR; LF] ++ ps_tcpdump_line
                          ++ [CR; CR; LF])))
           emulator (js "tcpdump") _ (ps_header ++ [CR]) [] ps_tcpdump_line CR
           112%N [[]]); try reflexivity.
  - exists (js "    PID   PPID  VSIZE  RSS     WCHAN    PC         NAME" ++ [CR]).
    reflexivity.
  - constructor.
Defined.

Lemma getPidsOfProcess_pids_witness :
  Forall (λ v, ∃ p, v = VStr p ∧ p ≠ [] ∧ no_space p) [VStr (js "1234")] ∧
  length [VStr (js "1234")] < length (split re_opt_cr_lf ps_tcpdump).
Proof.
  apply (getPidsOfProcess_pids (exec_outcome (Fulfilled ps_tcpdump)) emulator
           (js "tcpdump") ps_tcpdump [VStr (js "1234")]); reflexivity.
Defined.

Lemma getPidsOfProcess_no_process_witness :
  getPidsOfProcess (exec_outcome (Fulfilled (ps_header ++ [CR; LF])))
    emulator (js "tcpdump")
  = Fulfilled [].
Proof.
  apply (getPidsOfProcess_no_process
           (exec_outcome (Fulfilled (ps_header ++ [CR; LF])))
           emulator (js "tcpdump") (ps_header ++ [CR; LF]) ps_header [[]]);
    try reflexivity.
  - exists (js "    PID   PPID  VSIZE  RSS     WCHAN    PC         NAME").
    reflexivity.
  - repeat constructor.
Defined.

Lemma getPidsOfProcess_line_ends_witness :
  getPidsOfProcess (exec_outcome (Fulfilled ps_tcpdump)) emulator (js "tcpdump")
  = Fulfilled [VStr (js "1234")] ↔
  getPidsOfProcess
    (exec_outcome (Fulfilled (ps_header ++ [LF] ++ ps_tcpdump_line ++ [LF])))
    emulator (js "tcpdump")
  = Fulfilled [VStr (js "1234")].
Proof.
  apply (getPidsOfProcess_line_ends
           (exec_outcome (Fulfilled ps_tcpdump))
           (exec_outcome (Fulfilled (ps_header ++ [LF] ++ ps_tcpdump_line ++ [LF])))
           emulator zeroed [] (js "tcpdump") ps_tcpdump
           (ps_header ++ [LF] ++ ps_tcpdump_line ++ [LF])); reflexivity.
Defined.

(** ** The status that [exists] reads *)

Section ExistsStatus.

Context {App Options : Type}.
Context (scheduleExec :
  App → jsstring → list jsstring → option Options → value → promise jsstring).
Context (this : Adb App).

Local Abbreviation ls_outcome path :=
  (scheduleExec (app_ this) (adbCommand this)
     [js "-s"; serial this; js "shell";
      js "ls"; path; js ">"; js "/dev/null"; js "2>&1"; js ";"; js "echo"; js "$?"]
     None (VNum 60000)).

(** C4. The claim does not hold of the code: [exists] compares the whole
    stdout with ["0"], so whenever the echoed status is ["0"] and the
    stdout holds anything besides it (the line terminator that [echo]
    prints, an earlier line), [exists] resolves to [false] where the claim
    says [true]. *)
Theorem exists_misses_echoed_status path stdout :
  ls_outcome path = Fulfilled stdout →
  echoed_status stdout = js "0" →
  stdout ≠ js "0" →
  exists_ scheduleExec this path = Fulfilled false.
Proof.
  intros Hout _ Hne. unfold exists_. rewrite shell_dispatch.
  unfold js_or, DEFAULT_TIMEOUT. simpl. rewrite Hout. simpl.
  by rewrite bool_decide_eq_false_2.
Qed.

End ExistsStatus.

Lemma exists_misses_echoed_status_witness :
  exists_ (exec_outcome (Fulfilled (js "0" ++ [CR; LF]))) emulator (js "/sdcard")
  = Fulfilled false.
Proof.
  apply (exists_misses_echoed_status
           (exec_outcome (Fulfilled (js "0" ++ [CR; LF]))) emulator
           (js "/sdcard") (js "0" ++ [CR; LF])).
  - reflexivity.
  - reflexivity.
  - discriminate.
Defined.

Example echoed_status_ex :
  echoed_status (js "0" ++ [LF]) = js "0" ∧
  echoed_status (js "0" ++ [CR; LF]) = js "0" ∧
  echoed_status (js "1" ++ [LF] ++ js "0") = js "0" ∧
  echoed_status (js "0") = js "0" ∧
  echoed_status (js "00") = js "00" ∧
  echoed_status (js "0 ") = js "0 " ∧
  echoed_status (js "1") = js "1" ∧
  echoed_status [] = [].
Proof. repeat split. Qed.
